(** * skip-tools: keyword filtering of tool lists

    A shallow embedding of the TypeScript library (the [SkipTools] class and
    the annotation parser of [parser.ts]) together with the properties its
    specification states about it.

    Strings are JavaScript strings: sequences of UTF-16 code units.  Values
    that come out of [yaml.load] are untyped at run time (the source casts
    them with [as SkipConfig]), so configurations are kept as JavaScript
    values and every operation that JavaScript would reject with a
    [TypeError] is an explicit [Throws] in the model. *)

From Stdlib Require Import NArith ZArith Ascii String DecimalString Lia Bool.
From stdpp Require Import base list gmap sets.

Set Warnings "-register-all".

Local Open Scope N_scope.
Local Open Scope nat_scope.
Local Open Scope list_scope.

(** ** JavaScript strings *)

(** A string is its list of UTF-16 code units. *)
Abbreviation jsstring := (list N).

Fixpoint js (s : string) : jsstring :=
  match s with
  | EmptyString => []
  | String a s' => N_of_ascii a :: js s'
  end.
Arguments js : simpl never.

(** WhiteSpace and LineTerminator code points: what [\s] matches and what
    [String.prototype.trim] removes. *)
Definition is_whitespace (c : N) : bool :=
  ((c =? 9) || (c =? 10) || (c =? 11) || (c =? 12) || (c =? 13) || (c =? 32)
   || (c =? 160) || (c =? 5760) || ((8192 <=? c) && (c <=? 8202))
   || (c =? 8232) || (c =? 8233) || (c =? 8239) || (c =? 8287)
   || (c =? 12288) || (c =? 65279))%N.

(** What [.] does not match (no [s] flag). *)
Definition is_line_terminator (c : N) : bool :=
  ((c =? 10) || (c =? 13) || (c =? 8232) || (c =? 8233))%N.

Fixpoint drop_while {A} (p : A -> bool) (l : list A) : list A :=
  match l with
  | [] => []
  | x :: l' => if p x then drop_while p l' else l
  end.

(** [String.prototype.trim] *)
Definition trim (s : jsstring) : jsstring :=
  rev (drop_while is_whitespace (rev (drop_while is_whitespace s))).

(** [s.startsWith(p)] *)
Fixpoint startsWith (s p : jsstring) {struct p} : bool :=
  match p, s with
  | [], _ => true
  | _ :: _, [] => false
  | c :: p', d :: s' => (c =? d)%N && startsWith s' p'
  end.

(** [s.includes(sub)] *)
Fixpoint includes (s sub : jsstring) : bool :=
  startsWith s sub ||
  match s with
  | [] => false
  | _ :: s' => includes s' sub
  end.

(** [s.split(/\s+/)]: the fields between maximal runs of white space.  A
    leading or trailing run leaves an empty field at that end, and the empty
    string splits into one empty field.  [cur] is the current field,
    reversed; [in_ws] tells that the previous code unit was white space. *)
Fixpoint split_ws_from (cur : jsstring) (in_ws : bool) (s : jsstring)
  : list jsstring :=
  match s with
  | [] => [rev cur]
  | c :: s' =>
      if is_whitespace c then
        if in_ws then split_ws_from cur true s'
        else rev cur :: split_ws_from [] true s'
      else split_ws_from (c :: cur) false s'
  end.

Definition split_ws (s : jsstring) : list jsstring := split_ws_from [] false s.

(** [parts.join(sep)] on an array of strings *)
Fixpoint join (sep : jsstring) (parts : list jsstring) : jsstring :=
  match parts with
  | [] => []
  | [x] => x
  | x :: rest => x ++ sep ++ join sep rest
  end.

(** Decimal rendering of the integers that reach a template literal. *)
Definition Z_to_js (z : Z) : jsstring :=
  js (NilZero.string_of_int (Z.to_int z)).

Definition nat_to_js (n : nat) : jsstring :=
  js (NilZero.string_of_uint (Nat.to_uint n)).

(** ** JavaScript values and exceptions *)

(** A number, as far as the program can tell numbers apart: it tests a
    number for truth, compares it with 0 and prints it in a template
    literal.  [NumZero] is +0 and -0, [NumNaN] is NaN, and any other number
    is given by the text that [Number.prototype.toString] prints for it, so
    that fractions, exponent forms and the infinities are all there. *)
Inductive number :=
| NumZero
| NumNaN
| NumOther (text : jsstring).

(** The length of an array or of a string, as a number. *)
Definition number_of_nat (n : nat) : number :=
  match n with
  | 0 => NumZero
  | S _ => NumOther (nat_to_js n)
  end.

Definition number_toString (n : number) : jsstring :=
  match n with
  | NumZero => js "0"
  | NumNaN => js "NaN"
  | NumOther text => text
  end.

(** What [yaml.load] can return: the JSON-like values.  Objects list their
    own properties in insertion order and a lookup takes the first. *)
Inductive value :=
| VUndefined
| VNull
| VBool (b : bool)
| VNumber (n : number)
| VString (s : jsstring)
| VArray (items : list value)
| VObject (fields : list (jsstring * value)).

Definition ToBoolean (v : value) : bool :=
  match v with
  | VUndefined | VNull => false
  | VBool b => b
  | VNumber (NumOther _) => true
  | VNumber _ => false
  | VString s => negb (Nat.eqb (length s) 0)
  | VArray _ | VObject _ => true
  end.

Fixpoint lookup_field (key : jsstring) (fields : list (jsstring * value)) : value :=
  match fields with
  | [] => VUndefined
  | (k, v) :: rest => if bool_decide (k = key) then v else lookup_field key rest
  end.

(** [v.key] for the data properties the program reads: own properties of an
    object, and [length] of an array or a string. *)
Definition get_prop (v : value) (key : jsstring) : value :=
  match v with
  | VObject fields => lookup_field key fields
  | VArray items =>
      if bool_decide (key = js "length") then VNumber (number_of_nat (length items))
      else VUndefined
  | VString s =>
      if bool_decide (key = js "length") then VNumber (number_of_nat (length s))
      else VUndefined
  | _ => VUndefined
  end.

(** [v?.key] *)
Definition get_prop_opt (v : value) (key : jsstring) : value :=
  match v with
  | VUndefined | VNull => VUndefined
  | _ => get_prop v key
  end.

(** [v === 0] *)
Definition is_zero (v : value) : bool :=
  match v with
  | VNumber NumZero => true
  | _ => false
  end.

(** [`${v}`] *)
Fixpoint ToString (v : value) : jsstring :=
  match v with
  | VUndefined => js "undefined"
  | VNull => js "null"
  | VBool true => js "true"
  | VBool false => js "false"
  | VNumber n => number_toString n
  | VString s => s
  | VArray items =>
      join (js ",")
        (map (fun x => match x with
                       | VUndefined | VNull => []
                       | _ => ToString x
                       end) items)
  | VObject _ => js "[object Object]"
  end.

(** The exceptions the program meets.  The text of a [TypeError] is the
    engine's own; [what] names the call that failed. *)
Inductive exn :=
| TypeError (what : string)
| Error (message : jsstring)
| YAMLException (message : jsstring).

(** [`${error}`] *)
Definition exn_toString (e : exn) : jsstring :=
  match e with
  | TypeError what => js "TypeError: " ++ js what
  | Error message => js "Error: " ++ message
  | YAMLException message => js "YAMLException: " ++ message
  end.

Inductive result (A : Type) :=
| Returns (a : A)
| Throws (e : exn).
Arguments Returns {A} a.
Arguments Throws {A} e.

#[export] Instance result_ret : MRet result := fun A a => Returns a.
#[export] Instance result_bind : MBind result := fun A B f m =>
  match m with
  | Returns a => f a
  | Throws e => Throws e
  end.

(** [items.some(f)], [items.filter(f)] and [items.forEach(f)] with a callback
    that may throw: the first exception ends the loop. *)
Fixpoint someM {A} (f : A -> result bool) (items : list A) : result bool :=
  match items with
  | [] => Returns false
  | x :: rest => b ← f x; if b : bool then Returns true else someM f rest
  end.

Fixpoint filterM {A} (f : A -> result bool) (items : list A) : result (list A) :=
  match items with
  | [] => Returns []
  | x :: rest =>
      b ← f x; kept ← filterM f rest;
      Returns (if b : bool then x :: kept else kept)
  end.

Fixpoint forEachM {A} (f : A -> result unit) (items : list A) : result unit :=
  match items with
  | [] => Returns tt
  | x :: rest => _ ← f x; forEachM f rest
  end.

(** ** types.ts *)

Record Tool := {
  tool_name : jsstring;
  tool_description : jsstring;
  tool_skip : value
}.

Record ParsedTool := {
  name : jsstring;
  description : jsstring;
  skip : value;
  originalDescription : jsstring;
  cleanDescription : jsstring
}.

(** [ChatCompletionMessageParam], as far as the program looks into it. *)
Inductive Role := RoleSystem | RoleDeveloper | RoleUser | RoleAssistant | RoleTool | RoleFunction.

Inductive PartKind := KindImageUrl | KindInputAudio | KindFile | KindRefusal.

Inductive ContentPart :=
| TextPart (text : jsstring)
| OtherPart (kind : PartKind).

Inductive Content :=
| ContentAbsent
| ContentText (s : jsstring)
| ContentParts (parts : list ContentPart).

Record ToolCall := {
  call_id : jsstring;
  call_function : jsstring;
  call_arguments : jsstring
}.

Record Message := {
  role : Role;
  content : Content;
  tool_calls : option (list ToolCall)
}.

Record FilterOptions := {
  messages : list Message;
  maxTools : option Z;
  onlyNewMessages : option bool
}.

Record FilterResult := {
  tools : list ParsedTool;
  totalOriginalCount : nat;
  filteredCount : nat;
  reason : jsstring;
  messagesProcessed : nat
}.

(** ** The regular expression of parser.ts

    A backtracking matcher for the constructs [SKIP_YAML_REGEX] uses: greedy
    quantifiers that give back what they took when the rest fails, and one
    capturing group.  The continuation receives the input that is left and
    the text captured so far. *)
Inductive regex :=
| RChar (c : N)
| RClass (p : N -> bool)
| RSeq (r1 r2 : regex)
| RStar (r : regex)
| ROpt (r : regex)
| RGroup (r : regex).

Definition RPlus (r : regex) : regex := RSeq r (RStar r).

Fixpoint RLit (s : jsstring) (r : regex) : regex :=
  match s with
  | [] => r
  | c :: s' => RSeq (RChar c) (RLit s' r)
  end.

Fixpoint rmatch {R} (r : regex) (s : jsstring) (cap : option jsstring)
    (k : jsstring -> option jsstring -> option R) : option R :=
  match r with
  | RChar c =>
      match s with
      | d :: s' => if (c =? d)%N then k s' cap else None
      | [] => None
      end
  | RClass p =>
      match s with
      | d :: s' => if p d then k s' cap else None
      | [] => None
      end
  | RSeq r1 r2 => rmatch r1 s cap (fun s' cap' => rmatch r2 s' cap' k)
  | ROpt r1 =>
      match rmatch r1 s cap k with
      | Some x => Some x
      | None => k s cap
      end
  | RStar r1 =>
      (fix star (fuel : nat) (s : jsstring) (cap : option jsstring) : option R :=
         match fuel with
         | 0 => k s cap
         | S fuel' =>
             match rmatch r1 s cap
                     (fun s' cap' =>
                        if length s' <? length s then star fuel' s' cap'
                        else None) with
             | Some x => Some x
             | None => k s cap
             end
         end) (length s) s cap
  | RGroup r1 =>
      rmatch r1 s cap (fun s' _ => k s' (Some (take (length s - length s') s)))
  end.

Record RegExpMatch := {
  index : nat;
  matched : jsstring;
  group1 : option jsstring
}.

(** [s.match(r)] without the [g] flag: the match at the leftmost position
    that has one. *)
Fixpoint regex_exec_from (r : regex) (i : nat) (s : jsstring) : option RegExpMatch :=
  match rmatch r s None (fun s' cap => Some (s', cap)) with
  | Some (s', cap) =>
      Some {| index := i; matched := take (length s - length s') s; group1 := cap |}
  | None =>
      match s with
      | [] => None
      | _ :: s' => regex_exec_from r (S i) s'
      end
  end.

Definition regex_exec (r : regex) (s : jsstring) : option RegExpMatch :=
  regex_exec_from r 0 s.

(** [SKIP_YAML_REGEX]: a line feed, [\s*], the text [skip:], [\s*], a line
    feed, and then the capturing group, which repeats [\s+.+\n?] any number
    of times. *)
Definition SKIP_YAML_REGEX : regex :=
  RSeq (RChar 10)
    (RSeq (RStar (RClass is_whitespace))
       (RLit (js "skip:")
          (RSeq (RStar (RClass is_whitespace))
             (RSeq (RChar 10)
                (RGroup
                   (RStar
                      (RSeq (RPlus (RClass is_whitespace))
                         (RSeq (RPlus (RClass (fun c => negb (is_line_terminator c))))
                            (ROpt (RChar 10)))))))))).

(** [s.replace(pat, '')] with a string pattern: the first occurrence goes. *)
Fixpoint replace_first (s pat : jsstring) : jsstring :=
  if startsWith s pat then drop (length pat) s
  else match s with
       | [] => []
       | c :: s' => c :: replace_first s' pat
       end.

(** ** What the program takes from its platform

    [String.prototype.toLowerCase] (the Unicode case mapping) and js-yaml's
    [load] are not part of the repository; the development is parametric in
    both. *)
Class Host := {
  toLowerCase : jsstring -> jsstring;
  yaml_load : jsstring -> result value
}.

(** [foldM] runs a loop that updates an accumulator and may throw. *)
Fixpoint foldM {A S} (f : S -> A -> result S) (acc : S) (items : list A) : result S :=
  match items with
  | [] => Returns acc
  | x :: rest => acc' ← f acc x; foldM f acc' rest
  end.

(** [typeof v === 'object'] *)
Definition typeof_object (v : value) : bool :=
  match v with
  | VNull | VArray _ | VObject _ => true
  | _ => false
  end.

Definition is_null (v : value) : bool :=
  match v with
  | VNull => true
  | _ => false
  end.

(** [Array.isArray(v)] *)
Definition isArray (v : value) : bool :=
  match v with
  | VArray _ => true
  | _ => false
  end.

(** A [Set<string>] is queried with tool names only, so it is kept as the set
    of the strings put into it: a member that is not a string cannot be told
    from an absent one by [has(tool.name)]. *)
Definition set_has (s : gset jsstring) (v : value) : bool :=
  match v with
  | VString x => bool_decide (x ∈ s)
  | _ => false
  end.

Definition set_add (v : value) (s : gset jsstring) : gset jsstring :=
  match v with
  | VString x => {[x]} ∪ s
  | _ => s
  end.

Definition quote : jsstring := [34%N].

(** [messages.slice(start)] and [tools.slice(0, end)] *)
Definition slice_from {A} (start : nat) (l : list A) : list A := drop start l.

Definition slice_to {A} (l : list A) (e : Z) : list A :=
  if (e <? 0)%Z then take (Z.to_nat (Z.max (Z.of_nat (length l) + e) 0)) l
  else take (Z.to_nat (Z.min e (Z.of_nat (length l)))) l.

Module Extracted.
Record t := {
  query : jsstring;
  messagesProcessed : nat
}.
End Extracted.

Record DescriptionParse := {
  clean : jsstring;
  skipConfig : value;
  warnings : list jsstring
}.

(** The engine: the two private fields of [class SkipTools]. *)
Record SkipTools := {
  parsedTools : list ParsedTool;
  lastProcessedMessageCount : nat
}.

(** [match[1]], as [yaml.load] reads it: js-yaml turns its input into a
    string first. *)
Definition yamlContent (m : RegExpMatch) : jsstring :=
  match group1 m with
  | Some text => text
  | None => js "undefined"
  end.

Section Model.
Context `{Host}.

(** ** parser.ts *)

Definition parseToolDescription (description : jsstring) : DescriptionParse :=
  match regex_exec SKIP_YAML_REGEX description with
  | None =>
      {| clean := trim description; skipConfig := VUndefined; warnings := [] |}
  | Some m =>
      let cleanDescription := trim (replace_first description (matched m)) in
      let attempt :=
        skipConfig ← yaml_load (yamlContent m);
        if negb (typeof_object skipConfig) || is_null skipConfig
        then Throws (Error (js "Invalid skip configuration format"))
        else Returns skipConfig in
      match attempt with
      | Returns skipConfig =>
          {| clean := cleanDescription; skipConfig := skipConfig; warnings := [] |}
      | Throws error =>
          {| clean := cleanDescription;
             skipConfig := VUndefined;
             warnings := [js "Failed to parse skip configuration: " ++ exn_toString error] |}
      end
  end.

(** One step of the [map] in [parseTools]: the parsed tool and what the step
    wrote to the console. *)
Definition parseTool (tool : Tool) : ParsedTool * list jsstring :=
  let p := parseToolDescription (tool_description tool) in
  ({| name := tool_name tool;
      description := tool_description tool;
      originalDescription := tool_description tool;
      cleanDescription := clean p;
      skip := if ToBoolean (skipConfig p) then skipConfig p else tool_skip tool |},
   warnings p).

Definition parseTools (tools : list Tool) : list ParsedTool * list jsstring :=
  (map (fun tool => fst (parseTool tool)) tools,
   flat_map (fun tool => snd (parseTool tool)) tools).

Definition validateSkipConfig (config : value) : bool :=
  if negb (typeof_object config) || is_null config then false
  else if ToBoolean (get_prop config (js "depends_on"))
          && negb (isArray (get_prop config (js "depends_on"))) then false
  else if ToBoolean (get_prop config (js "keywords"))
          && negb (isArray (get_prop config (js "keywords"))) then false
  else true.

(** ** The SkipTools class *)

Definition dependency_message (toolName : jsstring) (depName : value) : jsstring :=
  js "Tool " ++ quote ++ toolName ++ quote ++ js " depends on " ++ quote
  ++ ToString depName ++ quote
  ++ js " which is not found in the provided tools list. Dependencies must reference other tools in the same list.".

Definition validateDependencies (parsed : list ParsedTool) : result unit :=
  let toolNames : gset jsstring := list_to_set (map name parsed) in
  forEachM (fun tool =>
    let deps := get_prop_opt (skip tool) (js "depends_on") in
    if ToBoolean deps then
      match deps with
      | VArray items =>
          forEachM (fun depName =>
            if negb (set_has toolNames depName)
            then Throws (Error (dependency_message (name tool) depName))
            else Returns tt) items
      | _ => Throws (TypeError "tool.skip.depends_on.forEach is not a function")
      end
    else Returns tt) parsed.

(** [new SkipTools(tools)], with what the parser wrote to the console. *)
Definition new_SkipTools (tools : list Tool) : result SkipTools * list jsstring :=
  let parsed := parseTools tools in
  (_ ← validateDependencies (fst parsed);
   Returns {| parsedTools := fst parsed; lastProcessedMessageCount := 0 |},
   snd parsed).

Definition extractTextFromContent (c : Content) : option jsstring :=
  match c with
  | ContentText s => Some s
  | ContentParts parts =>
      Some (join (js " ")
              (omap (fun part => match part with
                                 | TextPart text => Some text
                                 | OtherPart _ => None
                                 end) parts))
  | ContentAbsent => None
  end.

Definition content_truthy (c : Content) : bool :=
  match c with
  | ContentAbsent => false
  | ContentText s => negb (Nat.eqb (length s) 0)
  | ContentParts _ => true
  end.

Definition is_tool_traffic (msg : Message) : bool :=
  match role msg with
  | RoleTool => true
  | RoleAssistant =>
      match tool_calls msg with
      | Some _ => true
      | None => false
      end
  | _ => false
  end.

Definition extractQueryFromMessages (this : SkipTools) (messages : list Message)
    (onlyNewMessages : bool) : Extracted.t :=
  let messagesToProcess :=
    if onlyNewMessages then slice_from (lastProcessedMessageCount this) messages
    else messages in
  let nonToolMessages :=
    List.filter (fun msg => negb (is_tool_traffic msg)) messagesToProcess in
  let textContent :=
    join (js " ")
      (map trim
         (List.filter (fun text => negb (Nat.eqb (length text) 0)
                                   && (0 <? length (trim text)))
            (omap (fun msg => extractTextFromContent (content msg))
               (List.filter (fun msg => content_truthy (content msg))
                  nonToolMessages)))) in
  {| Extracted.query := textContent;
     Extracted.messagesProcessed := length messages |}.

(** The test of one query word against one keyword. *)
Definition word_overlaps (keywordLower word : jsstring) : bool :=
  (2 <? length word)
  && (includes keywordLower word
      || includes word keywordLower
      || startsWith keywordLower word
      || startsWith word keywordLower).

Definition keyword_matches (queryLower : jsstring) (queryWords : list jsstring)
    (keyword : value) : result bool :=
  match keyword with
  | VString k =>
      let keywordLower := toLowerCase k in
      if includes queryLower keywordLower then Returns true
      else Returns (existsb (word_overlaps keywordLower) queryWords)
  | _ => Throws (TypeError "keyword.toLowerCase is not a function")
  end.

Definition tool_passes (queryLower : jsstring) (queryWords : list jsstring)
    (tool : ParsedTool) : result bool :=
  let keywords := get_prop_opt (skip tool) (js "keywords") in
  if negb (ToBoolean keywords) || is_zero (get_prop keywords (js "length"))
  then Returns true
  else match keywords with
       | VArray items => someM (keyword_matches queryLower queryWords) items
       | _ => Throws (TypeError "tool.skip.keywords.some is not a function")
       end.

Definition filterByKeywords (tools : list ParsedTool) (query : jsstring)
  : result (list ParsedTool) :=
  let queryLower := toLowerCase query in
  let queryWords :=
    List.filter (fun word => 2 <? length word) (split_ws queryLower) in
  filterM (tool_passes queryLower queryWords) tools.

Definition add_dependency_names (resultTools : gset jsstring) (tool : ParsedTool)
  : result (gset jsstring) :=
  let deps := get_prop_opt (skip tool) (js "depends_on") in
  if ToBoolean deps then
    match deps with
    | VArray items =>
        foldM (fun acc depName => Returns (set_add depName acc)) resultTools items
    | _ => Throws (TypeError "tool.skip.depends_on.forEach is not a function")
    end
  else Returns resultTools.

Definition addDependencies (this : SkipTools) (filteredTools : list ParsedTool)
  : result (list ParsedTool) :=
  let resultTools : gset jsstring :=
    fold_left (fun acc tool => {[name tool]} ∪ acc) filteredTools ∅ in
  resultTools ← foldM add_dependency_names resultTools filteredTools;
  Returns (List.filter (fun tool => bool_decide (name tool ∈ resultTools))
             (parsedTools this)).

Definition option_truthy (o : option bool) : bool :=
  match o with
  | Some b => b
  | None => false
  end.

Definition generateFilterReason (this : SkipTools) (options : FilterOptions)
    (resultCount : nat) : jsstring :=
  let reasons1 :=
    if 0 <? length (messages options) then
      let messageScope :=
        if option_truthy (onlyNewMessages options) then js "new" else js "all" in
      let messageCount :=
        if option_truthy (onlyNewMessages options)
        then Z.max 0 (Z.of_nat (length (messages options))
                      - Z.of_nat (lastProcessedMessageCount this))
        else Z.of_nat (length (messages options)) in
      [js "filtered by keywords from " ++ Z_to_js messageCount ++ js " "
       ++ messageScope ++ js " messages, dependencies added"]
    else [] in
  let reasons2 :=
    match maxTools options with
    | Some z =>
        if negb (z =? 0)%Z && (Z.of_nat resultCount =? z)%Z
        then [js "limited to " ++ Z_to_js z ++ js " tools"]
        else []
    | None => []
    end in
  let reasons := reasons1 ++ reasons2 in
  if 0 <? length reasons then join (js ", ") reasons else js "no filters applied".

(** [filter]: the engine after the call, and what the call returned or
    threw.  The assignment to [lastProcessedMessageCount] comes before the
    steps that can throw, so it is kept when they do. *)
Definition filter (this : SkipTools) (options : FilterOptions)
  : SkipTools * result FilterResult :=
  let onlyNew := option_truthy (onlyNewMessages options) in
  let extractedQuery := extractQueryFromMessages this (messages options) onlyNew in
  let this :=
    {| parsedTools := parsedTools this;
       lastProcessedMessageCount := length (messages options) |} in
  (this,
   filteredTools ←
     (if negb (Nat.eqb (length (Extracted.query extractedQuery)) 0)
      then filterByKeywords (parsedTools this) (Extracted.query extractedQuery)
      else Returns (parsedTools this));
   filteredTools ← addDependencies this filteredTools;
   let filteredTools :=
     match maxTools options with
     | Some z =>
         if negb (z =? 0)%Z && (z <? Z.of_nat (length filteredTools))%Z
         then slice_to filteredTools z
         else filteredTools
     | None => filteredTools
     end in
   Returns {| tools := filteredTools;
              totalOriginalCount := length (parsedTools this);
              filteredCount := length filteredTools;
              reason := generateFilterReason this options (length filteredTools);
              messagesProcessed := Extracted.messagesProcessed extractedQuery |}).

Definition getAllTools (this : SkipTools) : list ParsedTool := parsedTools this.

Definition getCleanDescriptions (this : SkipTools) : list (jsstring * jsstring) :=
  map (fun tool => (name tool, cleanDescription tool)) (parsedTools this).

(** A sequence of [filter] calls on one engine: the engine after the last
    call and what each call returned or threw. *)
Fixpoint filter_calls (this : SkipTools) (calls : list FilterOptions)
  : SkipTools * list (result FilterResult) :=
  match calls with
  | [] => (this, [])
  | options :: rest =>
      let (this1, r) := filter this options in
      let (this2, rs) := filter_calls this1 rest in
      (this2, r :: rs)
  end.

End Model.

(** ** The vocabulary of the specification *)

(** [sub] occurs in [s]. *)
Definition substring (sub s : jsstring) : Prop :=
  exists pre post, s = pre ++ sub ++ post.

(** Where a word may begin and end: at an end of the string or next to a
    white space code unit. *)
Definition word_start (pre : jsstring) : Prop :=
  pre = [] \/ exists p c, pre = p ++ [c] /\ is_whitespace c = true.

Definition word_end (post : jsstring) : Prop :=
  post = [] \/ exists c p, post = c :: p /\ is_whitespace c = true.

(** [w] is one of the words of [q] that white space separates: a non-empty
    stretch of [q] without white space that cannot be extended. *)
Definition query_word (w q : jsstring) : Prop :=
  exists pre post,
    q = pre ++ w ++ post
    /\ w <> []
    /\ Forall (fun c => is_whitespace c = false) w
    /\ word_start pre
    /\ word_end post.

(** A keyword matches a query; both are given in lower case. *)
Definition keyword_matches_spec (queryLower keywordLower : jsstring) : Prop :=
  substring keywordLower queryLower
  \/ exists word,
       query_word word queryLower
       /\ 2 < length word
       /\ (substring keywordLower word
           \/ substring word keywordLower
           \/ word `prefix_of` keywordLower
           \/ keywordLower `prefix_of` word).

(** The strings of an array value; no strings for anything else. *)
Definition strings_of (v : value) : list jsstring :=
  match v with
  | VArray items =>
      omap (fun x => match x with
                     | VString s => Some s
                     | _ => None
                     end) items
  | _ => []
  end.

Definition keywords_of (tool : ParsedTool) : list jsstring :=
  strings_of (get_prop_opt (skip tool) (js "keywords")).

Definition depends_on_of (tool : ParsedTool) : list jsstring :=
  strings_of (get_prop_opt (skip tool) (js "depends_on")).

(** The shape [types.ts] declares for [keywords] and [depends_on]: absent
    (any value JavaScript takes for false counts) or an array of strings. *)
Definition string_array_or_absent (v : value) : Prop :=
  ToBoolean v = false \/ exists l, v = VArray (map VString l).

Definition keywords_shaped (tool : ParsedTool) : Prop :=
  string_array_or_absent (get_prop_opt (skip tool) (js "keywords")).

(** [depends_on] is absent or an array, whatever the array holds. *)
Definition depends_on_array (tool : ParsedTool) : Prop :=
  let deps := get_prop_opt (skip tool) (js "depends_on") in
  ToBoolean deps = false \/ exists items, deps = VArray items.

Definition depends_on_entries (tool : ParsedTool) : list value :=
  match get_prop_opt (skip tool) (js "depends_on") with
  | VArray items => items
  | _ => []
  end.

(** A [depends_on] entry is resolved when it is the name of a tool of the
    list. *)
Definition resolved (parsed : list ParsedTool) (entry : value) : Prop :=
  exists tool, In tool parsed /\ entry = VString (name tool).

(** An engine as construction leaves it and every tool's keywords of the
    declared shape. *)
Definition well_formed (this : SkipTools) : Prop :=
  validateDependencies (parsedTools this) = Returns tt
  /\ Forall keywords_shaped (parsedTools this).


(** The names dependency expansion keeps: those of the filtered tools and
    those the filtered tools depend on directly. *)
Definition in_expansion (filtered : list ParsedTool) (n : jsstring) : Prop :=
  (exists tool, In tool filtered /\ name tool = n)
  \/ (exists tool, In tool filtered /\ In n (depends_on_of tool)).

(** ** A host and sample data for the examples *)

Definition ascii_toLowerCase (s : jsstring) : jsstring :=
  map (fun c => if ((65 <=? c) && (c <=? 90))%N then (c + 32)%N else c) s.

Definition line_feed : jsstring := [10%N].

(** js-yaml's results on the documents the examples load. *)
Definition sample_documents : list (jsstring * value) :=
  [ (js "  keywords: weather",
     VObject [(js "keywords", VString (js "weather"))]);
    (js "  depends_on: get_weather",
     VObject [(js "depends_on", VString (js "get_weather"))]);
    (js "  plain text",
     VString (js "plain text"));
    (js "  keywords: [" ++ quote ++ js "base" ++ quote ++ js "]",
     VObject [(js "keywords", VArray [VString (js "base")])]);
    (js "  depends_on: [" ++ quote ++ js "base_tool" ++ quote ++ js "]"
       ++ line_feed
       ++ js "  keywords: [" ++ quote ++ js "dependent" ++ quote ++ js "]",
     VObject [(js "depends_on", VArray [VString (js "base_tool")]);
              (js "keywords", VArray [VString (js "dependent")])]);
    (js "  depends_on: [" ++ quote ++ js "non_existent_tool" ++ quote ++ js "]"
       ++ line_feed
       ++ js "  keywords: [" ++ quote ++ js "bad" ++ quote ++ js "]",
     VObject [(js "depends_on", VArray [VString (js "non_existent_tool")]);
              (js "keywords", VArray [VString (js "bad")])]) ].

Fixpoint lookup_document (text : jsstring) (docs : list (jsstring * value))
  : option value :=
  match docs with
  | [] => None
  | (t, v) :: rest => if bool_decide (t = text) then Some v else lookup_document text rest
  end.

(** ASCII case mapping, which is what [toLowerCase] does on Basic Latin
    text, and the sample documents; a document that is not among them is
    answered with a [YAMLException]. *)
#[export] Instance sample_host : Host := {
  toLowerCase := ascii_toLowerCase;
  yaml_load text :=
    match lookup_document text sample_documents with
    | Some v => Returns v
    | None => Throws (YAMLException (js "unexpected document"))
    end
}.

Definition described (n : string) (text : jsstring) : Tool :=
  {| tool_name := js n; tool_description := text; tool_skip := VUndefined |}.

Definition skip_block (text : jsstring) (body : jsstring) : jsstring :=
  text ++ line_feed ++ line_feed ++ js "skip:" ++ line_feed ++ body.

Definition base_tool : Tool :=
  described "base_tool"
    (skip_block (js "A base tool with no dependencies.")
       (js "  keywords: [" ++ quote ++ js "base" ++ quote ++ js "]")).

Definition dependent_tool : Tool :=
  described "dependent_tool"
    (skip_block (js "A tool that depends on base_tool.")
       (js "  depends_on: [" ++ quote ++ js "base_tool" ++ quote ++ js "]"
        ++ line_feed
        ++ js "  keywords: [" ++ quote ++ js "dependent" ++ quote ++ js "]")).

Definition plain_tool : Tool := described "plain_tool" (js "A tool without annotations.").

Definition bad_tool : Tool :=
  described "bad_tool"
    (skip_block (js "A tool with invalid dependency.")
       (js "  depends_on: [" ++ quote ++ js "non_existent_tool" ++ quote ++ js "]"
        ++ line_feed
        ++ js "  keywords: [" ++ quote ++ js "bad" ++ quote ++ js "]")).

Definition sample_tools : list Tool := [base_tool; dependent_tool; plain_tool].

Definition sample_parsed : list ParsedTool := fst (parseTools sample_tools).

Definition sample_engine : SkipTools :=
  {| parsedTools := sample_parsed; lastProcessedMessageCount := 0 |}.

(** A tool that carries its configuration on the record, and the
    three-level chain of the repository's dependency test. *)
Definition configured (n : string) (deps kws : list string) : Tool :=
  {| tool_name := js n;
     tool_description := js n;
     tool_skip :=
       VObject [(js "depends_on", VArray (map (fun d => VString (js d)) deps));
                (js "keywords", VArray (map (fun k => VString (js k)) kws))] |}.

Definition chain_tools : list Tool :=
  [ configured "level1_tool" [] ["unique_level1"%string];
    configured "level2_tool" ["level1_tool"%string] ["unique_level2"%string];
    configured "level3_tool" ["level2_tool"%string] ["level3"%string] ].

Definition chain_engine : SkipTools :=
  {| parsedTools := fst (parseTools chain_tools); lastProcessedMessageCount := 0 |}.

(** A block whose keywords are one string, not a list of strings. *)
Definition weather_tool : Tool :=
  described "get_weather"
    (skip_block (js "Get current weather.") (js "  keywords: weather")).

Definition weather_engine : SkipTools :=
  {| parsedTools := fst (parseTools [weather_tool]); lastProcessedMessageCount := 0 |}.



(** The same block on a tool without a configuration of its own, and the
    match of [SKIP_YAML_REGEX] in its description. *)
Definition scalar_only_tool : Tool :=
  described "notes" (skip_block (js "Get current weather.") (js "  plain text")).

Definition scalar_block_match : RegExpMatch :=
  {| index := 20;
     matched := line_feed ++ line_feed ++ js "skip:" ++ line_feed ++ js "  plain text";
     group1 := Some (js "  plain text") |}.

(** A block whose [depends_on] is one string. *)
Definition depends_string_tool : Tool :=
  described "forecast"
    (skip_block (js "Forecast for a place.") (js "  depends_on: get_weather")).


Definition user_says (text : string) : Message :=
  {| role := RoleUser; content := ContentText (js text); tool_calls := None |}.

Definition ask (msgs : list Message) : FilterOptions :=
  {| messages := msgs; maxTools := None; onlyNewMessages := None |}.

(** Two tools with one name, and a third tool. *)
Definition twin_first : ParsedTool :=
  fst (parseTool (configured "twin" [] ["alpha"%string])).

Definition twin_second : ParsedTool :=
  fst (parseTool (configured "twin" [] ["beta"%string])).

Definition twin_engine : SkipTools :=
  {| parsedTools :=
       [twin_first; twin_second;
        fst (parseTool (configured "other" [] ["gamma"%string]))];
     lastProcessedMessageCount := 0 |}.

(** A tool response, as it stands in a history. *)
Definition tool_response : Message :=
  {| role := RoleTool;
     content := ContentText (js "weather is 20 degrees");
     tool_calls := None |}.

(** ** Vocabulary for the further properties *)

(** The same call without [maxTools]. *)
Definition without_limit (options : FilterOptions) : FilterOptions :=
  {| messages := messages options;
     maxTools := None;
     onlyNewMessages := onlyNewMessages options |}.

(** The trimmed, non-empty texts that [extractQueryFromMessages] joins. *)
Definition message_texts (msgs : list Message) : list jsstring :=
  map trim
    (List.filter (fun text => negb (Nat.eqb (length text) 0)
                              && (0 <? length (trim text)))
       (omap (fun msg => extractTextFromContent (content msg))
          (List.filter (fun msg => content_truthy (content msg))
             (List.filter (fun msg => negb (is_tool_traffic msg)) msgs)))).

(** Two queries put together as [join(' ')] puts their texts together. *)
Definition join_queries (q1 q2 : jsstring) : jsstring :=
  match q1, q2 with
  | [], _ => q2
  | _, [] => q1
  | _, _ => q1 ++ js " " ++ q2
  end.

(** A message that gives no text to the query. *)
Definition silent (msg : Message) : Prop :=
  is_tool_traffic msg = true
  \/ content msg = ContentAbsent
  \/ exists text, extractTextFromContent (content msg) = Some text /\ trim text = [].

(** * Properties *)

(** ** Strings *)

Lemma startsWith_prefix (s p : jsstring) :
  startsWith s p = true <-> p `prefix_of` s.
Proof.
  revert s. induction p as [|c p IH]; intros s; simpl.
  - split; [intros _; apply prefix_nil | done].
  - destruct s as [|d s].
    + split; [done | intros [k Hk]; discriminate].
    + rewrite andb_true_iff, N.eqb_eq, IH. split.
      * intros [-> Hp]. by apply prefix_cons.
      * intros [k Hk]. simplify_eq/=. split; [done | by exists k].
Qed.

Lemma includes_substring (s sub : jsstring) :
  includes s sub = true <-> substring sub s.
Proof.
  induction s as [|d s IH]; simpl.
  - rewrite orb_false_r, startsWith_prefix. split.
    + intros [k ->]. by exists [], k.
    + intros (pre & post & Hs). symmetry in Hs.
      apply app_eq_nil in Hs as [-> Hs]. apply app_eq_nil in Hs as [-> ->].
      apply prefix_nil.
  - rewrite orb_true_iff, startsWith_prefix, IH. split.
    + intros [[k ->] | (pre & post & ->)].
      * by exists [], k.
      * by exists (d :: pre), post.
    + intros (pre & post & Hs). destruct pre as [|e pre]; simpl in Hs.
      * left. exists post. done.
      * right. simplify_eq. by exists pre, post.
Qed.

Lemma word_end_cons_ws (c : N) (s : jsstring) :
  is_whitespace c = true -> word_end (c :: s).
Proof. intros Hc. right. by exists c, s. Qed.

Lemma split_ws_from_words (cur : jsstring) (in_ws : bool) (s w : jsstring) :
  w <> [] ->
  (in_ws = true -> cur = []) ->
  In w (split_ws_from cur in_ws s) <->
    (exists s1 post,
        s = s1 ++ post /\ w = rev cur ++ s1
        /\ Forall (fun c => is_whitespace c = false) s1 /\ word_end post)
    \/ (exists a c post,
        s = a ++ c :: w ++ post /\ is_whitespace c = true
        /\ Forall (fun c => is_whitespace c = false) w /\ word_end post).
Proof.
  intros Hw. revert cur in_ws. induction s as [|c s IH]; intros cur in_ws Hcur; simpl.
  - split.
    + intros [<- | []]. left. exists [], [].
      split_and!; [done | by rewrite app_nil_r | constructor | by left].
    + intros [(s1 & post & Hs & -> & _) | (a & c & post & Hs & _)].
      * symmetry in Hs. apply app_eq_nil in Hs as [-> _]. rewrite app_nil_r. by left.
      * by destruct a.
  - destruct (is_whitespace c) eqn:Hc.
    + (* a separator *)
      assert (Hlater :
        In w (split_ws_from [] true s) <->
        (exists a c0 post,
            c :: s = a ++ c0 :: w ++ post /\ is_whitespace c0 = true
            /\ Forall (fun c => is_whitespace c = false) w /\ word_end post)).
      { rewrite (IH [] true) by done. simpl. split.
        - intros [(s1 & post & -> & -> & Hs1 & Hpost) | (a & c0 & post & -> & H0 & Hw' & Hpost)].
          + by exists [], c, post.
          + by exists (c :: a), c0, post.
        - intros (a & c0 & post & Hs & H0 & Hw' & Hpost).
          destruct a as [|a0 a]; simplify_eq/=.
          + left. by exists w, post.
          + right. by exists a, c0, post. }
      assert (Hfirst : forall cur',
        (exists s1 post,
            c :: s = s1 ++ post /\ w = rev cur' ++ s1
            /\ Forall (fun c => is_whitespace c = false) s1 /\ word_end post)
        <-> w = rev cur').
      { intros cur'. split.
        - intros (s1 & post & Hs & -> & Hs1 & _).
          destruct s1 as [|d s1]; [by rewrite app_nil_r|].
          simplify_eq/=. inversion Hs1; congruence.
        - intros ->. exists [], (c :: s).
          split_and!; [done | by rewrite app_nil_r | constructor
                      | by apply word_end_cons_ws]. }
      destruct in_ws.
      * rewrite Hcur by done. rewrite Hlater, Hfirst. simpl.
        split; [by right | intros [-> | ?]; done].
      * simpl. rewrite Hlater, Hfirst. split; intros [?|?]; auto.
    + (* a code unit of a word *)
      rewrite (IH (c :: cur) false) by done. simpl. split.
      * intros [(s1 & post & -> & -> & Hs1 & Hpost) | (a & c0 & post & -> & H0 & Hw' & Hpost)].
        -- left. exists (c :: s1), post.
           split_and!; [done | by rewrite <- app_assoc | by constructor | done].
        -- right. by exists (c :: a), c0, post.
      * intros [(s1 & post & Hs & -> & Hs1 & Hpost) | (a & c0 & post & Hs & H0 & Hw' & Hpost)].
        -- left. destruct s1 as [|d s1]; simplify_eq/=.
           ++ destruct Hpost as [? | (c1 & p & ? & ?)]; simplify_eq/=; congruence.
           ++ exists s1, post. rewrite <- app_assoc. simpl.
              inversion Hs1; subst. done.
        -- right. destruct a as [|a0 a]; simplify_eq/=; [congruence|].
           by exists a, c0, post.
Qed.

Lemma split_ws_query_word (q w : jsstring) :
  w <> [] -> In w (split_ws q) <-> query_word w q.
Proof.
  intros Hw. unfold split_ws, query_word.
  rewrite split_ws_from_words by done. simpl. split.
  - intros [(s1 & post & -> & -> & Hs1 & Hpost) | (a & c & post & -> & Hc & Hw' & Hpost)].
    + exists [], post. split_and!; [done | done | done | by left | done].
    + exists (a ++ [c]), post. rewrite <- app_assoc.
      split_and!; [done | done | done | right; by exists a, c | done].
  - intros (pre & post & -> & _ & Hw' & [-> | (p & c & -> & Hc)] & Hpost).
    + left. by exists w, post.
    + right. exists p, c, post. by rewrite <- app_assoc.
Qed.

Lemma queryWords_spec (q w : jsstring) :
  In w (List.filter (fun word => 2 <? length word) (split_ws q))
  <-> query_word w q /\ 2 < length w.
Proof.
  rewrite filter_In, Nat.ltb_lt.
  assert (Hne : 2 < length w -> w <> []) by (destruct w; simpl; [lia | done]).
  split; intros [Hword Hlen]; (split; [|done]);
    by apply split_ws_query_word; auto.
Qed.

(** ** Loops that may throw, when the callback does not *)

Lemma someM_returns {A} (f : A -> result bool) (g : A -> bool) (items : list A) :
  (forall x, In x items -> f x = Returns (g x)) ->
  someM f items = Returns (existsb g items).
Proof.
  induction items as [|x items IH]; intros Hf; simpl; [done|].
  rewrite (Hf x) by (by left). simpl.
  destruct (g x); simpl; [done|]. apply IH. intros y Hy. apply Hf. by right.
Qed.

Lemma filterM_returns {A} (f : A -> result bool) (g : A -> bool) (items : list A) :
  (forall x, In x items -> f x = Returns (g x)) ->
  filterM f items = Returns (List.filter g items).
Proof.
  induction items as [|x items IH]; intros Hf; simpl; [done|].
  rewrite (Hf x) by (by left). simpl.
  rewrite IH by (intros y Hy; apply Hf; by right). simpl.
  by destruct (g x).
Qed.

Lemma filter_sublist_of {A} (g : A -> bool) (items : list A) :
  List.filter g items `sublist_of` items.
Proof.
  induction items as [|x items IH]; simpl; [constructor|].
  destruct (g x); by constructor.
Qed.

Lemma strings_of_strings (l : list jsstring) :
  strings_of (VArray (map VString l)) = l.
Proof. simpl. induction l as [|x l IH]; simpl; [done | by f_equal]. Qed.

Lemma strings_of_falsy (v : value) : ToBoolean v = false -> strings_of v = [].
Proof. by destruct v. Qed.

(** ** Keyword matching *)

Section KeywordMatching.
Context `{Host}.

Local Abbreviation queryWords query :=
  (List.filter (fun word => 2 <? length word) (split_ws (toLowerCase query))).

Lemma word_overlaps_spec (keywordLower word : jsstring) :
  word_overlaps keywordLower word = true <->
  2 < length word
  /\ (substring keywordLower word
      \/ substring word keywordLower
      \/ word `prefix_of` keywordLower
      \/ keywordLower `prefix_of` word).
Proof.
  unfold word_overlaps.
  rewrite andb_true_iff, !orb_true_iff, Nat.ltb_lt, !includes_substring,
    !startsWith_prefix.
  tauto.
Qed.

Lemma keyword_matches_string (query k : jsstring) :
  exists b,
    keyword_matches (toLowerCase query)
      (queryWords query)
      (VString k) = Returns b
    /\ (b = true <-> keyword_matches_spec (toLowerCase query) (toLowerCase k)).
Proof.
  unfold keyword_matches, keyword_matches_spec.
  destruct (includes (toLowerCase query) (toLowerCase k)) eqn:Hinc.
  - exists true. split; [done|]. split; [|done].
    intros _. left. by apply includes_substring.
  - eexists. split; [done|]. rewrite existsb_exists. split.
    + intros (w & Hw & Hov). right. exists w.
      apply queryWords_spec in Hw as [Hw _].
      apply word_overlaps_spec in Hov as [Hlen Hov]. done.
    + intros [Hsub | (w & Hw & Hlen & Hov)].
      * apply includes_substring in Hsub. congruence.
      * exists w. split; [by apply queryWords_spec|].
        by apply word_overlaps_spec.
Qed.

Lemma tool_passes_shaped (query : jsstring) (tool : ParsedTool) :
  keywords_shaped tool ->
  exists b,
    tool_passes (toLowerCase query)
      (queryWords query)
      tool = Returns b
    /\ (keywords_of tool = [] -> b = true)
    /\ (keywords_of tool <> [] ->
        (b = true <->
         exists keyword,
           In keyword (keywords_of tool)
           /\ keyword_matches_spec (toLowerCase query) (toLowerCase keyword))).
Proof.
  unfold keywords_shaped, keywords_of, tool_passes.
  intros [Hfalsy | [l Hl]].
  - rewrite Hfalsy. simpl. exists true. split_and!; [done | done |].
    intros Hne. by rewrite strings_of_falsy in Hne.
  - rewrite Hl, strings_of_strings. destruct l as [|k l].
    { exists true. by split_and!. }
    set (g := fun v : value =>
                match keyword_matches (toLowerCase query) (queryWords query) v with
                | Returns b => b
                | Throws _ => false
                end).
    exists (existsb g (map VString (k :: l))). split_and!.
    + change (someM (keyword_matches (toLowerCase query) (queryWords query))
                (map VString (k :: l))
              = Returns (existsb g (map VString (k :: l)))).
      apply someM_returns. intros v Hv.
      apply in_map_iff in Hv as (k' & <- & _). unfold g.
      by destruct (keyword_matches_string query k') as (b & -> & _).
    + done.
    + intros _. rewrite existsb_exists. split.
      * intros (v & Hv & Hg). apply in_map_iff in Hv as (k' & <- & Hin).
        exists k'. split; [done|]. unfold g in Hg.
        destruct (keyword_matches_string query k') as (b & Hb & Hspec).
        rewrite Hb in Hg. by apply Hspec.
      * intros (k' & Hin & Hspec'). exists (VString k'). split; [by apply in_map|].
        unfold g. destruct (keyword_matches_string query k') as (b & Hb & Hspec).
        rewrite Hb. by apply Hspec.
Qed.

(** C1.  On a list of tools whose keywords have the declared shape,
    [filterByKeywords] returns, and what it returns is the input filtered,
    in order, by a test that (i) every tool without keywords, or with an
    empty keyword list, passes and that (ii) a tool with keywords passes
    exactly when one of its keywords matches: the lower-case query contains
    the lower-case keyword, or a white-space-separated word of the query
    longer than two code units contains the keyword, is contained in it, is
    a prefix of it, or has it as a prefix. *)
Theorem filterByKeywords_spec (tools : list ParsedTool) (query : jsstring) :
  Forall keywords_shaped tools ->
  exists (kept : list ParsedTool) (keep : ParsedTool -> bool),
    filterByKeywords tools query = Returns kept
    /\ kept = List.filter keep tools
    /\ kept `sublist_of` tools
    /\ (forall tool, In tool tools -> keywords_of tool = [] -> keep tool = true)
    /\ (forall tool, In tool tools -> keywords_of tool <> [] ->
        (keep tool = true <->
         exists keyword,
           In keyword (keywords_of tool)
           /\ keyword_matches_spec (toLowerCase query) (toLowerCase keyword))).
Proof.
  intros Hshaped. unfold filterByKeywords.
  set (keep := fun tool : ParsedTool =>
                 match tool_passes (toLowerCase query) (queryWords query) tool with
                 | Returns b => b
                 | Throws _ => false
                 end).
  assert (Hkeep : forall tool, In tool tools ->
            tool_passes (toLowerCase query) (queryWords query) tool
            = Returns (keep tool)).
  { intros tool Hin. unfold keep.
    rewrite Forall_forall in Hshaped.
    destruct (tool_passes_shaped query tool) as (b & Hb & _).
    { apply Hshaped. by apply list_elem_of_In. }
    by rewrite Hb. }
  exists (List.filter keep tools), keep. split_and!.
  - by apply filterM_returns.
  - done.
  - apply filter_sublist_of.
  - intros tool Hin Hnone. rewrite Forall_forall in Hshaped.
    destruct (tool_passes_shaped query tool) as (b & Hb & Hi & _).
    { apply Hshaped. by apply list_elem_of_In. }
    unfold keep. rewrite Hb. by apply Hi.
  - intros tool Hin Hsome. rewrite Forall_forall in Hshaped.
    destruct (tool_passes_shaped query tool) as (b & Hb & _ & Hii).
    { apply Hshaped. by apply list_elem_of_In. }
    unfold keep. rewrite Hb. by apply Hii.
Qed.

End KeywordMatching.

Lemma sample_parsed_shaped : Forall keywords_shaped sample_parsed.
Proof.
  unfold sample_parsed, parseTools, keywords_shaped, string_array_or_absent.
  cbn [fst map].
  constructor; [right; by exists [js "base"]|].
  constructor; [right; by exists [js "dependent"]|].
  constructor; [by left | constructor].
Qed.

Lemma filterByKeywords_spec_witness :
  Forall keywords_shaped sample_parsed
  /\ exists kept keep,
       filterByKeywords sample_parsed (js "I need the Dependent functionality")
       = Returns kept
       /\ kept = List.filter keep sample_parsed
       /\ kept `sublist_of` sample_parsed
       /\ (forall tool, In tool sample_parsed -> keywords_of tool = [] ->
           keep tool = true)
       /\ (forall tool, In tool sample_parsed -> keywords_of tool <> [] ->
           (keep tool = true <->
            exists keyword,
              In keyword (keywords_of tool)
              /\ keyword_matches_spec
                   (toLowerCase (js "I need the Dependent functionality"))
                   (toLowerCase keyword))).
Proof.
  split; [apply sample_parsed_shaped|].
  apply filterByKeywords_spec, sample_parsed_shaped.
Defined.

Example filterByKeywords_sample :
  (fun r => match r with
            | Returns kept => Some (map name kept)
            | Throws _ => None
            end)
    (filterByKeywords sample_parsed (js "I need the Dependent functionality"))
  = Some [js "dependent_tool"; js "plain_tool"].
Proof. vm_compute. reflexivity. Qed.

(** ** Construction *)

Lemma forEachM_returns {A} (f : A -> result unit) (items : list A) :
  forEachM f items = Returns tt <-> forall x, In x items -> f x = Returns tt.
Proof.
  induction items as [|x items IH]; simpl.
  - split; [by intros _ y [] | done].
  - destruct (f x) as [[]|e] eqn:Hx; simpl.
    + rewrite IH. split.
      * intros Hall y [<- | Hy]; auto.
      * intros Hall y Hy. apply Hall. by right.
    + split; [done|]. intros Hall. specialize (Hall x (or_introl eq_refl)).
      congruence.
Qed.

Lemma forEachM_first_throw {A} (f : A -> result unit) (before after : list A)
    (x : A) (e : exn) :
  (forall y, In y before -> f y = Returns tt) ->
  f x = Throws e ->
  forEachM f (before ++ x :: after) = Throws e.
Proof.
  intros Hbefore Hx. induction before as [|y before IH]; simpl.
  - by rewrite Hx.
  - rewrite (Hbefore y) by (by left). simpl. apply IH.
    intros z Hz. apply Hbefore. by right.
Qed.

Lemma set_has_resolved (parsed : list ParsedTool) (entry : value) :
  set_has (list_to_set (map name parsed)) entry = true <-> resolved parsed entry.
Proof.
  unfold set_has, resolved. destruct entry as [| | | |n| |];
    try (split; [done | by intros (tool & _ & ?)]).
  rewrite bool_decide_eq_true, elem_of_list_to_set, list_elem_of_In, in_map_iff.
  split.
  - intros (tool & <- & Hin). by exists tool.
  - intros (tool & Hin & Heq). exists tool. split; [congruence | done].
Qed.

Lemma depends_on_entries_array (tool : ParsedTool) (items : list value) :
  get_prop_opt (skip tool) (js "depends_on") = VArray items ->
  depends_on_entries tool = items.
Proof. unfold depends_on_entries. by intros ->. Qed.

Lemma depends_on_entries_falsy (tool : ParsedTool) :
  ToBoolean (get_prop_opt (skip tool) (js "depends_on")) = false ->
  depends_on_entries tool = [].
Proof.
  unfold depends_on_entries. by destruct (get_prop_opt _ _).
Qed.

Section Construction.
Context `{Host}.

(** The body of the outer loop of [validateDependencies]. *)
Local Abbreviation check_tool parsed :=
  (fun tool : ParsedTool =>
     if ToBoolean (get_prop_opt (skip tool) (js "depends_on")) then
       match get_prop_opt (skip tool) (js "depends_on") with
       | VArray items =>
           forEachM (fun depName =>
             if negb (set_has (list_to_set (map name parsed)) depName)
             then Throws (Error (dependency_message (name tool) depName))
             else Returns tt) items
       | _ => Throws (TypeError "tool.skip.depends_on.forEach is not a function")
       end
     else Returns tt).

Lemma check_tool_returns (parsed : list ParsedTool) (tool : ParsedTool) :
  depends_on_array tool ->
  check_tool parsed tool = Returns tt
  <-> forall entry, In entry (depends_on_entries tool) -> resolved parsed entry.
Proof.
  intros [Hfalsy | [items Hitems]].
  - rewrite Hfalsy, depends_on_entries_falsy by done. split; [by intros _ e [] | done].
  - rewrite (depends_on_entries_array _ _ Hitems), Hitems. simpl.
    rewrite forEachM_returns. split.
    + intros Hall entry Hin. specialize (Hall entry Hin).
      apply set_has_resolved. by destruct (set_has _ entry).
    + intros Hall entry Hin. apply Hall, set_has_resolved in Hin. by rewrite Hin.
Qed.

Lemma check_tool_shape (parsed : list ParsedTool) (tool : ParsedTool) :
  check_tool parsed tool = Returns tt -> depends_on_array tool.
Proof.
  unfold depends_on_array.
  destruct (ToBoolean (get_prop_opt (skip tool) (js "depends_on"))) eqn:Hb;
    [|by left].
  destruct (get_prop_opt (skip tool) (js "depends_on")); try done.
  intros _. right. by eexists.
Qed.

Lemma validateDependencies_returns (parsed : list ParsedTool) :
  Forall depends_on_array parsed ->
  validateDependencies parsed = Returns tt
  <-> forall tool entry,
        In tool parsed -> In entry (depends_on_entries tool) -> resolved parsed entry.
Proof.
  intros Hshape. unfold validateDependencies. rewrite forEachM_returns.
  rewrite Forall_forall in Hshape. split.
  - intros Hall tool entry Hin. apply check_tool_returns; [|by apply Hall].
    by apply Hshape, list_elem_of_In.
  - intros Hall tool Hin. apply check_tool_returns.
    + by apply Hshape, list_elem_of_In.
    + intros entry. by apply Hall.
Qed.

Lemma validateDependencies_shape (parsed : list ParsedTool) :
  validateDependencies parsed = Returns tt -> Forall depends_on_array parsed.
Proof.
  unfold validateDependencies. rewrite forEachM_returns, Forall_forall.
  intros Hall tool Hin. apply (check_tool_shape parsed), Hall.
  by apply list_elem_of_In.
Qed.

Lemma validateDependencies_first_unresolved (parsed before after : list ParsedTool)
    (tool : ParsedTool) (resolved_entries rest : list value) (entry : value) :
  Forall depends_on_array parsed ->
  parsed = before ++ tool :: after ->
  depends_on_entries tool = resolved_entries ++ entry :: rest ->
  (forall t e, In t before -> In e (depends_on_entries t) -> resolved parsed e) ->
  (forall e, In e resolved_entries -> resolved parsed e) ->
  ~ resolved parsed entry ->
  validateDependencies parsed
  = Throws (Error (dependency_message (name tool) entry)).
Proof.
  intros Hshape -> Hentries Hbefore Hdone Hentry.
  unfold validateDependencies. cbv zeta.
  rewrite Forall_forall in Hshape.
  apply forEachM_first_throw.
  - intros t Ht. apply check_tool_returns.
    + apply Hshape, list_elem_of_In, in_or_app. by left.
    + intros e. by apply Hbefore.
  - destruct (Hshape tool) as [Hfalsy | [items Hitems]].
    { apply list_elem_of_In, in_or_app. right. by left. }
    + rewrite depends_on_entries_falsy in Hentries by done. by destruct resolved_entries.
    + rewrite (depends_on_entries_array _ _ Hitems) in Hentries.
      rewrite Hitems. simpl. rewrite Hentries. apply forEachM_first_throw.
      * intros e He. apply Hdone, set_has_resolved in He. by rewrite He.
      * destruct (set_has _ entry) eqn:Hhas; [|done].
        by apply set_has_resolved in Hhas.
Qed.


(** C3.  When every parsed tool's [depends_on] is absent or an array,
    construction succeeds exactly when every [depends_on] entry of every
    parsed tool is the name of a tool of the same list; and at the first
    entry that is not, a string Y in the list of the tool named X,
    construction throws an [Error] whose message is, letter by letter,
    [Tool "X" depends on "Y" which is not found in the provided tools list.]
    followed by one more sentence. *)
Theorem construction_validates_dependencies (tools : list Tool) :
  Forall depends_on_array (fst (parseTools tools)) ->
  ((exists this, fst (new_SkipTools tools) = Returns this)
   <-> forall tool entry,
         In tool (fst (parseTools tools)) ->
         In entry (depends_on_entries tool) ->
         resolved (fst (parseTools tools)) entry)
  /\ (forall before tool after resolved_entries missing rest,
        fst (parseTools tools) = before ++ tool :: after ->
        depends_on_entries tool = resolved_entries ++ VString missing :: rest ->
        (forall t e, In t before -> In e (depends_on_entries t) ->
                     resolved (fst (parseTools tools)) e) ->
        (forall e, In e resolved_entries -> resolved (fst (parseTools tools)) e) ->
        ~ resolved (fst (parseTools tools)) (VString missing) ->
        fst (new_SkipTools tools)
        = Throws (Error
            (js "Tool " ++ quote ++ name tool ++ quote ++ js " depends on "
             ++ quote ++ missing ++ quote
             ++ js " which is not found in the provided tools list."
             ++ js " Dependencies must reference other tools in the same list."))).
Proof.
  intros Hshape. unfold new_SkipTools. cbn [fst]. split.
  - rewrite <- validateDependencies_returns by done.
    destruct (validateDependencies (fst (parseTools tools))) as [[]|e]; simpl.
    + split; [done | by eexists].
    + split; [by intros [this ?] | done].
  - intros before tool after resolved_entries missing rest Hparsed Hentries
      Hbefore Hdone Hmissing.
    by rewrite (validateDependencies_first_unresolved _ before after tool
                  resolved_entries rest (VString missing)).
Qed.

End Construction.

Lemma sample_parsed_depends_on : Forall depends_on_array sample_parsed.
Proof.
  unfold sample_parsed, sample_tools, parseTools, depends_on_array.
  cbn [fst map].
  constructor; [by left|].
  constructor; [right; by exists [VString (js "base_tool")]|].
  constructor; [by left | constructor].
Qed.

Lemma bad_tool_depends_on : Forall depends_on_array (fst (parseTools [bad_tool])).
Proof.
  unfold parseTools, depends_on_array. cbn [fst map].
  constructor; [right; by exists [VString (js "non_existent_tool")] | constructor].
Qed.

Lemma bad_tool_unresolved :
  ~ resolved (fst (parseTools [bad_tool])) (VString (js "non_existent_tool")).
Proof.
  intros (tool & [<- | []] & Hname). vm_compute in Hname. discriminate.
Qed.

Lemma construction_validates_dependencies_witness :
  (Forall depends_on_array (fst (parseTools sample_tools))
   /\ ((exists this, fst (new_SkipTools sample_tools) = Returns this)
       <-> forall tool entry,
             In tool (fst (parseTools sample_tools)) ->
             In entry (depends_on_entries tool) ->
             resolved (fst (parseTools sample_tools)) entry))
  /\ (Forall depends_on_array (fst (parseTools [bad_tool]))
      /\ fst (parseTools [bad_tool]) = [] ++ fst (parseTool bad_tool) :: []
      /\ depends_on_entries (fst (parseTool bad_tool))
         = [] ++ VString (js "non_existent_tool") :: []
      /\ ~ resolved (fst (parseTools [bad_tool])) (VString (js "non_existent_tool"))
      /\ fst (new_SkipTools [bad_tool])
         = Throws (Error
             (js "Tool " ++ quote ++ name (fst (parseTool bad_tool)) ++ quote
              ++ js " depends on " ++ quote ++ js "non_existent_tool" ++ quote
              ++ js " which is not found in the provided tools list."
              ++ js " Dependencies must reference other tools in the same list."))).
Proof.
  split.
  - split; [apply sample_parsed_depends_on|].
    apply (construction_validates_dependencies sample_tools sample_parsed_depends_on).
  - assert (Hentries : depends_on_entries (fst (parseTool bad_tool))
                       = [] ++ VString (js "non_existent_tool") :: [])
      by (vm_compute; reflexivity).
    split; [apply bad_tool_depends_on|]. split; [reflexivity|].
    split; [exact Hentries|]. split; [apply bad_tool_unresolved|].
    exact (proj2 (construction_validates_dependencies [bad_tool] bad_tool_depends_on)
             [] (fst (parseTool bad_tool)) [] [] (js "non_existent_tool") []
             eq_refl Hentries
             (fun t e (Hin : In t []) _ => match Hin with end)
             (fun e (Hin : In e []) => match Hin with end)
             bad_tool_unresolved).
Defined.

Example construction_sample :
  fst (new_SkipTools sample_tools) = Returns sample_engine.
Proof. vm_compute. reflexivity. Qed.

(** The failing construction of the repository's dependency test. *)
Example construction_bad_tool :
  fst (new_SkipTools [bad_tool])
  = Throws (Error
      (js "Tool " ++ quote ++ js "bad_tool" ++ quote ++ js " depends on " ++ quote
       ++ js "non_existent_tool" ++ quote
       ++ js " which is not found in the provided tools list. Dependencies must reference other tools in the same list.")).
Proof. vm_compute. reflexivity. Qed.

(** ** Dependency expansion *)

Lemma fold_left_names (l : list ParsedTool) (S : gset jsstring) (n : jsstring) :
  n ∈ fold_left (fun acc tool => {[name tool]} ∪ acc) l S
  <-> n ∈ S \/ exists tool, In tool l /\ name tool = n.
Proof.
  revert S. induction l as [|t l IH]; intros S; simpl.
  - split; [by left | by intros [? | (? & [] & _)]].
  - rewrite IH, elem_of_union, elem_of_singleton. split.
    + intros [[-> | ?] | (tool & ? & ?)]; eauto.
    + intros [? | (tool & [<- | ?] & <-)]; eauto.
Qed.

Lemma foldM_set_add (items : list value) (S : gset jsstring) :
  exists S',
    foldM (fun acc depName => Returns (set_add depName acc)) S items = Returns S'
    /\ forall n, n ∈ S' <-> n ∈ S \/ In n (strings_of (VArray items)).
Proof.
  revert S. induction items as [|x items IH]; intros S; simpl.
  - exists S. split; [done|]. intros n. split; [by left | by intros [? | []]].
  - destruct (IH (set_add x S)) as (S' & HS' & Hmem). exists S'. split; [done|].
    intros n. rewrite Hmem. simpl.
    destruct x; simpl; rewrite ?elem_of_union, ?elem_of_singleton; try tauto.
    split.
    + intros [[-> | ?] | ?]; auto.
    + intros [? | [<- | ?]]; auto.
Qed.

Lemma add_dependency_names_spec (tool : ParsedTool) (S : gset jsstring) :
  depends_on_array tool ->
  exists S',
    add_dependency_names S tool = Returns S'
    /\ forall n, n ∈ S' <-> n ∈ S \/ In n (depends_on_of tool).
Proof.
  unfold depends_on_array, add_dependency_names, depends_on_of.
  intros [Hfalsy | [items Hitems]].
  - rewrite Hfalsy, strings_of_falsy by done. exists S. split; [done|].
    intros n. split; [by left | by intros [? | []]].
  - rewrite Hitems. apply foldM_set_add.
Qed.

Lemma foldM_add_dependency_names (l : list ParsedTool) (S : gset jsstring) :
  Forall depends_on_array l ->
  exists S',
    foldM add_dependency_names S l = Returns S'
    /\ forall n, n ∈ S' <-> n ∈ S \/ exists tool, In tool l /\ In n (depends_on_of tool).
Proof.
  intros Hl. revert S. induction Hl as [|t l Ht Hl IH]; intros S; simpl.
  - exists S. split; [done|]. intros n. split; [by left | by intros [? | (? & [] & _)]].
  - destruct (add_dependency_names_spec t S Ht) as (S1 & -> & H1). simpl.
    destruct (IH S1) as (S' & -> & H'). exists S'. split; [done|].
    intros n. rewrite H', H1. split.
    + intros [[? | ?] | (tool & ? & ?)]; eauto.
    + intros [? | (tool & [<- | ?] & ?)]; eauto.
Qed.

Lemma addDependencies_expansion (this : SkipTools) (filtered : list ParsedTool) :
  Forall depends_on_array filtered ->
  exists keep : ParsedTool -> bool,
    addDependencies this filtered = Returns (List.filter keep (parsedTools this))
    /\ (forall tool, keep tool = true <-> in_expansion filtered (name tool)).
Proof.
  intros Hshape. unfold addDependencies.
  destruct (foldM_add_dependency_names filtered
              (fold_left (fun acc tool => {[name tool]} ∪ acc) filtered ∅) Hshape)
    as (S' & -> & HS'). simpl.
  exists (fun tool => bool_decide (name tool ∈ S')). split; [done|].
  intros tool. rewrite bool_decide_eq_true, HS', fold_left_names.
  unfold in_expansion. rewrite elem_of_empty. tauto.
Qed.

Lemma validated_subset_shape (this : SkipTools) (filtered : list ParsedTool) :
  validateDependencies (parsedTools this) = Returns tt ->
  (forall tool, In tool filtered -> In tool (parsedTools this)) ->
  Forall depends_on_array filtered.
Proof.
  intros Hvalid Hsub. apply validateDependencies_shape in Hvalid.
  rewrite Forall_forall in Hvalid |- *. intros tool Hin.
  by apply Hvalid, list_elem_of_In, Hsub, list_elem_of_In.
Qed.

(** C2.  On an engine whose dependencies were validated, and for every list
    of the engine's tools, [addDependencies] returns the tools of the
    construction-time list, in that order, whose name is the name of a
    filtered tool or a direct [depends_on] entry of one; a dependency of a
    dependency whose name is in neither set is not in the result. *)
Theorem addDependencies_spec (this : SkipTools) (filtered : list ParsedTool) :
  validateDependencies (parsedTools this) = Returns tt ->
  (forall tool, In tool filtered -> In tool (parsedTools this)) ->
  exists (expanded : list ParsedTool) (keep : ParsedTool -> bool),
    addDependencies this filtered = Returns expanded
    /\ expanded = List.filter keep (parsedTools this)
    /\ expanded `sublist_of` parsedTools this
    /\ (forall tool, keep tool = true <-> in_expansion filtered (name tool))
    /\ (forall a b c,
          In a filtered ->
          In (name b) (depends_on_of a) ->
          In (name c) (depends_on_of b) ->
          ~ in_expansion filtered (name c) ->
          ~ In c expanded).
Proof.
  intros Hvalid Hsub.
  destruct (addDependencies_expansion this filtered) as (keep & Hadd & Hkeep).
  { by apply validated_subset_shape with this. }
  eexists _, keep. split_and!; [done | done | apply filter_sublist_of | done |].
  intros a b c _ _ _ Hnot Hin. apply filter_In in Hin as [_ Hc].
  by apply Hnot, Hkeep.
Qed.

Lemma chain_engine_validated :
  validateDependencies (parsedTools chain_engine) = Returns tt.
Proof. vm_compute. reflexivity. Qed.

Lemma addDependencies_spec_witness :
  validateDependencies (parsedTools chain_engine) = Returns tt
  /\ (forall tool, In tool (drop 2 (parsedTools chain_engine)) ->
                   In tool (parsedTools chain_engine))
  /\ exists expanded keep,
       addDependencies chain_engine (drop 2 (parsedTools chain_engine))
       = Returns expanded
       /\ expanded = List.filter keep (parsedTools chain_engine)
       /\ expanded `sublist_of` parsedTools chain_engine
       /\ (forall tool,
             keep tool = true
             <-> in_expansion (drop 2 (parsedTools chain_engine)) (name tool))
       /\ (forall a b c,
             In a (drop 2 (parsedTools chain_engine)) ->
             In (name b) (depends_on_of a) ->
             In (name c) (depends_on_of b) ->
             ~ in_expansion (drop 2 (parsedTools chain_engine)) (name c) ->
             ~ In c expanded).
Proof.
  assert (Hsub : forall tool, In tool (drop 2 (parsedTools chain_engine)) ->
                              In tool (parsedTools chain_engine)).
  { intros tool Hin. simpl in Hin. destruct Hin as [<- | []].
    right. right. by left. }
  split; [apply chain_engine_validated|]. split; [exact Hsub|].
  exact (addDependencies_spec chain_engine (drop 2 (parsedTools chain_engine))
           chain_engine_validated Hsub).
Defined.

(** One hop only: the third tool of the chain brings the second, not the
    first. *)
Example addDependencies_chain :
  (fun r => match r with
            | Returns expanded => Some (map name expanded)
            | Throws _ => None
            end)
    (addDependencies chain_engine (drop 2 (parsedTools chain_engine)))
  = Some [js "level2_tool"; js "level3_tool"].
Proof. vm_compute. reflexivity. Qed.

(** ** The filter operation *)

Section Filter.
Context `{Host}.

Lemma filterByKeywords_returns (tools : list ParsedTool) (query : jsstring) :
  Forall keywords_shaped tools ->
  exists keep : ParsedTool -> bool,
    filterByKeywords tools query = Returns (List.filter keep tools)
    /\ (forall tool, In tool tools -> keywords_of tool = [] -> keep tool = true).
Proof.
  intros Hshaped. unfold filterByKeywords.
  exists (fun tool =>
            match tool_passes (toLowerCase query)
                    (List.filter (fun word => 2 <? length word)
                       (split_ws (toLowerCase query))) tool with
            | Returns b => b
            | Throws _ => false
            end).
  rewrite Forall_forall in Hshaped. split.
  - apply filterM_returns. intros tool Hin.
    destruct (tool_passes_shaped query tool) as (b & Hb & _).
    { by apply Hshaped, list_elem_of_In. }
    by rewrite Hb.
  - intros tool Hin Hnone.
    destruct (tool_passes_shaped query tool) as (b & Hb & Hpass & _).
    { by apply Hshaped, list_elem_of_In. }
    rewrite Hb. by apply Hpass.
Qed.

Lemma filter_In_shape {A} (P : A -> Prop) (keep : A -> bool) (l : list A) :
  Forall P l -> Forall P (List.filter keep l).
Proof.
  rewrite !Forall_forall. intros Hl x Hx.
  apply list_elem_of_In, filter_In in Hx as [Hx _]. by apply Hl, list_elem_of_In.
Qed.

Lemma filter_all {A} (l : list A) : List.filter (fun _ => true) l = l.
Proof. induction l as [|x l IH]; simpl; [done | by f_equal]. Qed.

(** The steps of [filter] that can throw do not, on a well-formed engine. *)
Lemma filter_steps_return (this : SkipTools) (query : jsstring) :
  well_formed this ->
  exists keep1 keep2 : ParsedTool -> bool,
    (if negb (Nat.eqb (length query) 0)
     then filterByKeywords (parsedTools this) query
     else Returns (parsedTools this))
    = Returns (List.filter keep1 (parsedTools this))
    /\ addDependencies this (List.filter keep1 (parsedTools this))
       = Returns (List.filter keep2 (parsedTools this))
    /\ (forall tool,
          keep2 tool = true
          <-> in_expansion (List.filter keep1 (parsedTools this)) (name tool))
    /\ (length query = 0 -> forall tool, keep1 tool = true)
    /\ (forall tool, In tool (parsedTools this) -> keywords_of tool = [] ->
                     keep1 tool = true).
Proof.
  intros [Hvalid Hshaped].
  assert (Hdeps : Forall depends_on_array (parsedTools this))
    by by apply validateDependencies_shape.
  destruct (negb (Nat.eqb (length query) 0)) eqn:Hq.
  - destruct (filterByKeywords_returns (parsedTools this) query Hshaped)
      as (keep1 & Hkeep1 & Hnone).
    destruct (addDependencies_expansion this (List.filter keep1 (parsedTools this)))
      as (keep2 & Hadd & Hkeep2).
    { by apply filter_In_shape. }
    exists keep1, keep2. split_and!; [done | done | done | | done].
    intros Hlen. rewrite Hlen in Hq. done.
  - destruct (addDependencies_expansion this
                (List.filter (fun _ => true) (parsedTools this)))
      as (keep2 & Hadd & Hkeep2).
    { by apply filter_In_shape. }
    exists (fun _ => true), keep2. split_and!; [|done|done|done|done].
    by rewrite filter_all.
Qed.

Lemma filter_returns (this : SkipTools) (options : FilterOptions) :
  well_formed this ->
  exists res, snd (filter this options) = Returns res.
Proof.
  intros Hwf. unfold filter. cbn [snd parsedTools].
  destruct (filter_steps_return
              {| parsedTools := parsedTools this;
                 lastProcessedMessageCount := length (messages options) |}
              (Extracted.query
                 (extractQueryFromMessages this (messages options)
                    (option_truthy (onlyNewMessages options)))) Hwf)
    as (keep1 & keep2 & Hstep1 & Hstep2 & _).
  cbn [parsedTools] in Hstep1, Hstep2.
  rewrite Hstep1. simpl. rewrite Hstep2. simpl. by eexists.
Qed.


Lemma filter_result_counts (this : SkipTools) (options : FilterOptions)
    (res : FilterResult) :
  snd (filter this options) = Returns res ->
  messagesProcessed res = length (messages options)
  /\ totalOriginalCount res = length (parsedTools this)
  /\ filteredCount res = length (tools res).
Proof.
  unfold filter. cbn [snd parsedTools].
  destruct (if negb _ then _ else _) as [kept|e]; simpl; [|done].
  destruct (addDependencies _ kept) as [expanded|e]; simpl; [|done].
  intros [= <-]. done.
Qed.

Lemma filter_updates_count (this : SkipTools) (options : FilterOptions) :
  fst (filter this options)
  = {| parsedTools := parsedTools this;
       lastProcessedMessageCount := length (messages options) |}.
Proof. done. Qed.

Lemma filter_calls_parsedTools (this : SkipTools) (calls : list FilterOptions) :
  parsedTools (fst (filter_calls this calls)) = parsedTools this.
Proof.
  revert this. induction calls as [|options calls IH]; intros this; [done|].
  cbn [filter_calls].
  pose proof (filter_updates_count this options) as Hfirst.
  destruct (filter this options) as [this1 r].
  pose proof (IH this1) as Hrest.
  destruct (filter_calls this1 calls) as [this2 rs].
  cbn [fst] in *. rewrite Hrest, Hfirst. done.
Qed.

End Filter.

Lemma filter_keeps_all {A} (keep : A -> bool) (l : list A) :
  (forall x, In x l -> keep x = true) -> List.filter keep l = l.
Proof.
  induction l as [|x l IH]; intros Hall; simpl; [done|].
  rewrite (Hall x) by (by left). f_equal. apply IH. intros y Hy. apply Hall. by right.
Qed.

Lemma extractQuery_no_messages (this : SkipTools) (onlyNew : bool) :
  Extracted.query (extractQueryFromMessages this [] onlyNew) = [].
Proof.
  unfold extractQueryFromMessages, slice_from. rewrite drop_nil. by destruct onlyNew.
Qed.

Lemma extractQuery_window (this : SkipTools) (msgs : list Message) :
  Extracted.query (extractQueryFromMessages this msgs true)
  = Extracted.query
      (extractQueryFromMessages this (drop (lastProcessedMessageCount this) msgs) false).
Proof. done. Qed.

Lemma extractQuery_new_only (this : SkipTools) (old new : list Message) :
  lastProcessedMessageCount this = length old ->
  Extracted.query (extractQueryFromMessages this (old ++ new) true)
  = Extracted.query (extractQueryFromMessages this new false).
Proof. intros Hcount. by rewrite extractQuery_window, Hcount, drop_app_length. Qed.

Section FilterProperties.
Context `{Host}.

(** What a call returns depends on the messages through the query and
    through their number only. *)
Lemma filter_outcome_determined (this : SkipTools) (o1 o2 : FilterOptions) :
  length (messages o1) = length (messages o2) ->
  maxTools o1 = maxTools o2 ->
  onlyNewMessages o1 = onlyNewMessages o2 ->
  Extracted.query
    (extractQueryFromMessages this (messages o1) (option_truthy (onlyNewMessages o1)))
  = Extracted.query
      (extractQueryFromMessages this (messages o2) (option_truthy (onlyNewMessages o2))) ->
  snd (filter this o1) = snd (filter this o2).
Proof.
  intros Hlen Hmax Honly Hquery. unfold filter, generateFilterReason.
  cbn [snd parsedTools lastProcessedMessageCount].
  change (Extracted.messagesProcessed
            (extractQueryFromMessages this (messages o1)
               (option_truthy (onlyNewMessages o1))))
    with (length (messages o1)).
  change (Extracted.messagesProcessed
            (extractQueryFromMessages this (messages o2)
               (option_truthy (onlyNewMessages o2))))
    with (length (messages o2)).
  rewrite Hquery, Hlen, Hmax, Honly. done.
Qed.

(** With an empty query the keyword filter is not run, so the shape of
    the keywords does not matter. *)
Lemma filter_empty_query_validated (this : SkipTools) (options : FilterOptions) :
  validateDependencies (parsedTools this) = Returns tt ->
  Extracted.query
    (extractQueryFromMessages this (messages options)
       (option_truthy (onlyNewMessages options))) = [] ->
  exists res,
    snd (filter this options) = Returns res
    /\ messagesProcessed res = length (messages options)
    /\ (maxTools options = None -> tools res = parsedTools this)
    /\ (forall z, maxTools options = Some z -> (0 < z)%Z ->
                  tools res = take (Z.to_nat z) (parsedTools this)).
Proof.
  intros Hvalid Hquery. unfold filter. cbn [snd parsedTools].
  rewrite Hquery. cbn [length Nat.eqb negb].
  destruct (addDependencies_expansion
              {| parsedTools := parsedTools this;
                 lastProcessedMessageCount := length (messages options) |}
              (parsedTools this)) as (keep & Hadd & Hkeep).
  { by apply validateDependencies_shape. }
  cbn [parsedTools] in Hadd.
  assert (Hall : List.filter keep (parsedTools this) = parsedTools this).
  { apply filter_keeps_all. intros tool Hin. apply Hkeep. left. by exists tool. }
  rewrite Hall in Hadd. unfold mbind at 1, result_bind at 1. rewrite Hadd.
  unfold mbind, result_bind.
  eexists. split; [done|]. cbn [messagesProcessed tools]. split_and!.
  - done.
  - by intros ->.
  - intros z -> Hz. unfold slice_to.
    destruct (z <? Z.of_nat (length (parsedTools this)))%Z eqn:Hlt.
    + replace (negb (z =? 0)%Z) with true by (symmetry; apply negb_true_iff; lia).
      replace (z <? 0)%Z with false by lia. simpl. f_equal. lia.
    + rewrite andb_false_r. symmetry. apply take_ge. lia.
Qed.

(** C4, as the code has it.  On an engine that construction accepted,
    [filter] returns a result for every input whenever the keywords have
    the declared shape, and also, whatever the keywords are, whenever the
    messages give an empty query.  With an empty query the tools are the
    whole construction-time list when [maxTools] is absent, and its first
    [maxTools] entries when [maxTools] is a positive number; and with no
    messages at all, [messagesProcessed] is 0 as well. *)
Theorem filter_returns_on_well_formed (this : SkipTools) (options : FilterOptions) :
  validateDependencies (parsedTools this) = Returns tt ->
  (Forall keywords_shaped (parsedTools this) ->
   exists res, snd (filter this options) = Returns res)
  /\ (Extracted.query
        (extractQueryFromMessages this (messages options)
           (option_truthy (onlyNewMessages options))) = [] ->
      exists res,
        snd (filter this options) = Returns res
        /\ (maxTools options = None -> tools res = parsedTools this)
        /\ (forall z, maxTools options = Some z -> (0 < z)%Z ->
                      tools res = take (Z.to_nat z) (parsedTools this)))
  /\ (messages options = [] ->
      exists res,
        snd (filter this options) = Returns res
        /\ messagesProcessed res = 0
        /\ (maxTools options = None -> tools res = parsedTools this)
        /\ (forall z, maxTools options = Some z -> (0 < z)%Z ->
                      tools res = take (Z.to_nat z) (parsedTools this))).
Proof.
  intros Hvalid. split_and!.
  - intros Hshaped. by apply filter_returns.
  - intros Hquery.
    destruct (filter_empty_query_validated this options Hvalid Hquery)
      as (res & Hres & _ & Hnone & Hlimit).
    by exists res.
  - intros Hnone.
    destruct (filter_empty_query_validated this options Hvalid)
      as (res & Hres & Hcount & Hfull & Hlimit).
    { rewrite Hnone. apply extractQuery_no_messages. }
    exists res. rewrite Hnone in Hcount. done.
Qed.

(** C5.  Every call sets [lastProcessedMessageCount] to the length of the
    supplied messages, whatever [onlyNewMessages] is; the result the call
    returns has that same length as [messagesProcessed]; and the call does
    return a result unless the engine is not well formed. *)
Theorem filter_messagesProcessed (this : SkipTools) (options : FilterOptions) :
  lastProcessedMessageCount (fst (filter this options)) = length (messages options)
  /\ match snd (filter this options) with
     | Returns res => messagesProcessed res = length (messages options)
     | Throws _ => ~ well_formed this
     end.
Proof.
  split; [done|].
  destruct (snd (filter this options)) as [res|e] eqn:Hcall.
  - by apply filter_result_counts in Hcall as [? _].
  - intros Hwf. destruct (filter_returns this options Hwf) as [res Hres]. congruence.
Qed.

(** C6.  After any call, a call with [onlyNewMessages] set takes its query
    from the messages at and after the index that the previous call
    recorded, the length of that call's messages: the query is the one of
    the slice, and two histories that differ only before that index get the
    same outcome. *)
Theorem onlyNewMessages_window (this : SkipTools) (previous : FilterOptions)
    (msgs : list Message) (limit : option Z) :
  Extracted.query (extractQueryFromMessages (fst (filter this previous)) msgs true)
  = Extracted.query
      (extractQueryFromMessages (fst (filter this previous))
         (drop (length (messages previous)) msgs) false)
  /\ forall old old' new,
       length old = length (messages previous) ->
       length old' = length (messages previous) ->
       snd (filter (fst (filter this previous))
              {| messages := old ++ new; maxTools := limit;
                 onlyNewMessages := Some true |})
       = snd (filter (fst (filter this previous))
                {| messages := old' ++ new; maxTools := limit;
                   onlyNewMessages := Some true |}).
Proof.
  split; [done|]. intros old old' new Hold Hold'.
  apply filter_outcome_determined; cbn [messages maxTools onlyNewMessages];
    [by rewrite !length_app, Hold, Hold' | done | done |].
  cbn [option_truthy].
  by rewrite (extractQuery_new_only _ old new), (extractQuery_new_only _ old' new).
Qed.

(** C9.  A sequence of [filter] calls leaves the parsed tool list as it
    was, so names, descriptions, configurations, length and order are
    unchanged; the engine after the calls differs from the engine before
    them in [lastProcessedMessageCount] at most. *)
Theorem filter_preserves_parsedTools (this : SkipTools) (calls : list FilterOptions) :
  parsedTools (fst (filter_calls this calls)) = parsedTools this
  /\ getAllTools (fst (filter_calls this calls)) = getAllTools this
  /\ getCleanDescriptions (fst (filter_calls this calls)) = getCleanDescriptions this
  /\ fst (filter_calls this calls)
     = {| parsedTools := parsedTools this;
          lastProcessedMessageCount :=
            lastProcessedMessageCount (fst (filter_calls this calls)) |}.
Proof.
  pose proof (filter_calls_parsedTools this calls) as Hsame.
  unfold getAllTools, getCleanDescriptions. rewrite Hsame.
  split_and!; try done.
  rewrite <- Hsame. by destruct (fst (filter_calls this calls)).
Qed.

(** C10.  With [onlyNewMessages] false or absent, what [filter] returns does
    not depend on the calls made before: after any two sequences of calls
    on the same engine, the same options give the same outcome. *)
Theorem filter_history_independent (this : SkipTools)
    (calls1 calls2 : list FilterOptions) (options : FilterOptions) :
  option_truthy (onlyNewMessages options) = false ->
  snd (filter (fst (filter_calls this calls1)) options)
  = snd (filter (fst (filter_calls this calls2)) options).
Proof.
  intros Hflag.
  pose proof (filter_calls_parsedTools this calls1) as H1.
  pose proof (filter_calls_parsedTools this calls2) as H2.
  unfold filter, generateFilterReason, extractQueryFromMessages.
  rewrite Hflag. cbn [snd parsedTools lastProcessedMessageCount].
  rewrite H1, H2. done.
Qed.

End FilterProperties.

(** ** The annotation parser *)

Lemma rmatch_suffix {R} (r : regex) :
  forall (s : jsstring) (cap : option jsstring)
         (k : jsstring -> option jsstring -> option R) (x : R),
    rmatch r s cap k = Some x ->
    exists s' cap', s' `suffix_of` s /\ k s' cap' = Some x.
Proof.
  induction r as [c | p | r1 IH1 r2 IH2 | r1 IH1 | r1 IH1 | r1 IH1];
    intros s cap k x Hmatch; simpl in Hmatch.
  - destruct s as [|d s]; [done|]. destruct (c =? d)%N; [|done].
    exists s, cap. split; [by apply suffix_cons_r | done].
  - destruct s as [|d s]; [done|]. destruct (p d); [|done].
    exists s, cap. split; [by apply suffix_cons_r | done].
  - apply IH1 in Hmatch as (s1 & cap1 & Hs1 & Hmatch).
    apply IH2 in Hmatch as (s2 & cap2 & Hs2 & Hk).
    exists s2, cap2. split; [by etrans | done].
  - revert Hmatch. generalize (length s) at 1. intros fuel. revert s cap.
    induction fuel as [|fuel IHfuel]; intros s cap Hmatch.
    + by exists s, cap.
    + destruct (rmatch r1 s cap _) as [y|] eqn:Hiter.
      * injection Hmatch as ->.
        apply IH1 in Hiter as (s1 & cap1 & Hs1 & Hiter).
        destruct (length s1 <? length s); [|done].
        apply IHfuel in Hiter as (s2 & cap2 & Hs2 & Hk).
        exists s2, cap2. split; [by etrans | done].
      * by exists s, cap.
  - destruct (rmatch r1 s cap k) as [y|] eqn:Hfirst.
    + injection Hmatch as ->. by apply IH1 in Hfirst.
    + by exists s, cap.
  - apply IH1 in Hmatch as (s1 & cap1 & Hs1 & Hk). by eexists _, _.
Qed.

Lemma regex_exec_from_substring (r : regex) (i : nat) (s : jsstring) (m : RegExpMatch) :
  regex_exec_from r i s = Some m -> substring (matched m) s.
Proof.
  revert i m. induction s as [|c s IH]; intros i m; cbn [regex_exec_from].
  - destruct (rmatch r [] None _) as [[s' cap]|] eqn:Hmatch; [|done].
    intros [= <-]. simpl. by exists [], [].
  - destruct (rmatch r (c :: s) None _) as [[s' cap]|] eqn:Hmatch.
    + intros [= <-]. cbn [matched].
      apply rmatch_suffix in Hmatch as (s1 & cap1 & [pre Hpre] & [= -> ->]).
      exists [], s'. change (S (length s)) with (length (c :: s)).
      rewrite Hpre, length_app.
      replace (length pre + length s' - length s') with (length pre) by lia.
      by rewrite take_app_length.
    + intros Hrest. apply IH in Hrest as (pre & post & ->).
      by exists (c :: pre), post.
Qed.

Lemma replace_first_removes (s pat : jsstring) :
  substring pat s ->
  exists pre post, s = pre ++ pat ++ post /\ replace_first s pat = pre ++ post.
Proof.
  induction s as [|c s IH]; intros Hsub; simpl.
  - destruct Hsub as (pre & post & Hs). symmetry in Hs.
    apply app_eq_nil in Hs as [-> Hs]. apply app_eq_nil in Hs as [-> ->].
    by exists [], [].
  - destruct (startsWith (c :: s) pat) eqn:Hstart.
    + apply startsWith_prefix in Hstart as [k Hk]. exists [], k.
      split; [done|]. rewrite Hk. by rewrite drop_app_length.
    + destruct Hsub as (pre & post & Hs). destruct pre as [|d pre].
      * assert (startsWith (c :: s) pat = true); [|congruence].
        apply startsWith_prefix. by exists post.
      * simplify_eq/=. destruct IH as (pre' & post' & Hs & Hrep).
        { by exists pre, post. }
        exists (d :: pre'), post'. split; [by rewrite Hs at 1 | by rewrite Hrep].
Qed.

Section Parser.
Context `{Host}.



End Parser.

(** ** The sample engines *)

Lemma sample_engine_well_formed : well_formed sample_engine.
Proof.
  split; [by vm_compute | apply sample_parsed_shaped].
Qed.



Lemma sample_engine_validated :
  validateDependencies (parsedTools sample_engine) = Returns tt.
Proof. vm_compute. reflexivity. Qed.

Lemma filter_returns_on_well_formed_witness :
  validateDependencies (parsedTools sample_engine) = Returns tt
  /\ Forall keywords_shaped (parsedTools sample_engine)
  /\ (exists res,
        snd (filter sample_engine
               {| messages := []; maxTools := Some 2%Z; onlyNewMessages := None |})
        = Returns res)
  /\ (exists res,
        snd (filter sample_engine
               {| messages := []; maxTools := Some 2%Z; onlyNewMessages := None |})
        = Returns res
        /\ messagesProcessed res = 0
        /\ tools res = take 2 (parsedTools sample_engine)).
Proof.
  split; [apply sample_engine_validated|]. split; [apply sample_parsed_shaped|].
  destruct (filter_returns_on_well_formed sample_engine
              {| messages := []; maxTools := Some 2%Z; onlyNewMessages := None |}
              sample_engine_validated) as (Hreturns & _ & Hempty).
  split; [exact (Hreturns sample_parsed_shaped)|].
  destruct (Hempty eq_refl) as (res & Hres & Hcount & _ & Hlimit).
  exists res. split; [exact Hres|]. split; [exact Hcount|].
  exact (Hlimit 2%Z eq_refl eq_refl).
Defined.

(** C4, as the specification states it, fails in two ways.  With no
    messages and [maxTools] 1 the result is not the whole tool list; and an
    engine that construction accepted, whose one tool has a string for
    keywords, throws a [TypeError] on a query. *)
Lemma filter_total_counterexample :
  (exists res,
     snd (filter sample_engine
            {| messages := []; maxTools := Some 1%Z; onlyNewMessages := None |})
     = Returns res
     /\ map name (tools res) = [js "base_tool"]
     /\ tools res <> parsedTools sample_engine)
  /\ fst (new_SkipTools [weather_tool]) = Returns weather_engine
  /\ snd (filter weather_engine (ask [user_says "hello there"]))
     = Throws (TypeError "tool.skip.keywords.some is not a function").
Proof.
  split_and!; try (vm_compute; reflexivity).
  eexists. split_and!; [vm_compute; reflexivity | vm_compute; reflexivity |].
  intros Heq. apply (f_equal length) in Heq. vm_compute in Heq. discriminate.
Qed.

(** C8, on the code.  The parser accepts a block whose [keywords] is a
    string, without a warning, and construction accepts the tool;
    [validateSkipConfig], which nothing calls, rejects that configuration;
    and the next query makes [filter] throw a [TypeError] instead of
    treating the tool as one without keywords.  A string for [depends_on]
    makes construction itself throw a [TypeError]. *)
Theorem ill_shaped_configuration_throws :
  new_SkipTools [weather_tool] = (Returns weather_engine, [])
  /\ Forall (fun tool => validateSkipConfig (skip tool) = false)
       (parsedTools weather_engine)
  /\ snd (filter weather_engine (ask [user_says "hello there"]))
     = Throws (TypeError "tool.skip.keywords.some is not a function")
  /\ new_SkipTools [weather_tool; depends_string_tool]
     = (Throws (TypeError "tool.skip.depends_on.forEach is not a function"), []).
Proof.
  split_and!; try (vm_compute; reflexivity).
  repeat constructor.
Qed.

Lemma onlyNewMessages_window_witness :
  length [user_says "Old message about weather"] = length (messages (ask [user_says "hello"]))
  /\ length [user_says "Something else"] = length (messages (ask [user_says "hello"]))
  /\ snd (filter (fst (filter sample_engine (ask [user_says "hello"])))
            {| messages := [user_says "Old message about weather"]
                           ++ [user_says "base"];
               maxTools := None; onlyNewMessages := Some true |})
     = snd (filter (fst (filter sample_engine (ask [user_says "hello"])))
              {| messages := [user_says "Something else"] ++ [user_says "base"];
                 maxTools := None; onlyNewMessages := Some true |}).
Proof.
  split; [reflexivity|]. split; [reflexivity|].
  exact (proj2 (onlyNewMessages_window sample_engine (ask [user_says "hello"])
                  [] None)
           [user_says "Old message about weather"] [user_says "Something else"]
           [user_says "base"] eq_refl eq_refl).
Defined.

Lemma filter_history_independent_witness :
  option_truthy (onlyNewMessages (ask [user_says "base"])) = false
  /\ snd (filter (fst (filter_calls sample_engine [])) (ask [user_says "base"]))
     = snd (filter (fst (filter_calls sample_engine
                           [ask [user_says "one"; user_says "two"]]))
              (ask [user_says "base"])).
Proof.
  split; [reflexivity|].
  exact (filter_history_independent sample_engine []
           [ask [user_says "one"; user_says "two"]] (ask [user_says "base"]) eq_refl).
Defined.

(** The transitive-dependency test of the repository, through [filter]. *)
Example filter_chain :
  (fun r => match r with
            | Returns res => Some (map name (tools res))
            | Throws _ => None
            end)
    (snd (filter chain_engine (ask [user_says "I need level3 functionality"])))
  = Some [js "level2_tool"; js "level3_tool"].
Proof. vm_compute. reflexivity. Qed.

(** The windowing test of the repository: the second call reads the third
    message only. *)
Example onlyNewMessages_sample :
  (fun r => match r with
            | Returns res => Some (map name (tools res), messagesProcessed res)
            | Throws _ => None
            end)
    (snd (filter (fst (filter sample_engine
                         (ask [user_says "about the base"; user_says "more"])))
            {| messages := [user_says "about the base"; user_says "more";
                            user_says "nothing new"];
               maxTools := None; onlyNewMessages := Some true |}))
  = Some ([js "plain_tool"], 3).
Proof. vm_compute. reflexivity. Qed.

(** * Further properties of the code *)

(** ** The match of [SKIP_YAML_REGEX] *)

Lemma rmatch_char {R} (c : N) (s : jsstring) (cap : option jsstring)
    (k : jsstring -> option jsstring -> option R) (x : R) :
  rmatch (RChar c) s cap k = Some x ->
  exists s', s = c :: s' /\ k s' cap = Some x.
Proof.
  simpl. destruct s as [|d s]; [done|].
  destruct (c =? d)%N eqn:Hc; [|done].
  apply N.eqb_eq in Hc as ->. intros Hk. by exists s.
Qed.

Lemma rmatch_literal {R} (lit : jsstring) (r : regex) :
  forall (s : jsstring) (cap : option jsstring)
         (k : jsstring -> option jsstring -> option R) (x : R),
    rmatch (RLit lit r) s cap k = Some x ->
    exists s', s = lit ++ s' /\ rmatch r s' cap k = Some x.
Proof.
  induction lit as [|c lit IH]; intros s cap k x Hmatch.
  - by exists s.
  - cbn [RLit] in Hmatch. change (rmatch (RSeq (RChar c) (RLit lit r)) s cap k)
      with (rmatch (RChar c) s cap (fun s' cap' => rmatch (RLit lit r) s' cap' k))
      in Hmatch.
    apply rmatch_char in Hmatch as (s1 & -> & Hmatch).
    apply IH in Hmatch as (s2 & -> & Hmatch). by exists s2.
Qed.

Lemma rmatch_star_class {R} (p : N -> bool) (s : jsstring) (cap : option jsstring)
    (k : jsstring -> option jsstring -> option R) (x : R) :
  rmatch (RStar (RClass p)) s cap k = Some x ->
  exists run s', s = run ++ s' /\ Forall (fun c => p c = true) run /\ k s' cap = Some x.
Proof.
  cbn [rmatch]. generalize (length s) at 1. intros fuel. revert s.
  induction fuel as [|fuel IH]; intros s Hmatch.
  - by exists [], s.
  - destruct s as [|d s].
    + by exists [], [].
    + destruct (p d) eqn:Hd; [|by exists [], (d :: s)].
      destruct (length s <? length (d :: s)) eqn:Hlen.
      * destruct ((fix star (fuel0 : nat) (s0 : jsstring)
                     (cap0 : option jsstring) {struct fuel0} : option R := _)
                    fuel s cap) as [y|] eqn:Hrest.
        -- injection Hmatch as ->. apply IH in Hrest as (run & s' & -> & Hrun & Hk).
           exists (d :: run), s'. split_and!; [done | by constructor | done].
        -- by exists [], (d :: s).
      * by exists [], (d :: s).
Qed.

Lemma rmatch_group {R} (r : regex) (s : jsstring) (cap : option jsstring)
    (k : jsstring -> option jsstring -> option R) (x : R) :
  rmatch (RGroup r) s cap k = Some x ->
  exists text s', s = text ++ s' /\ k s' (Some text) = Some x.
Proof.
  cbn [rmatch]. intros Hmatch.
  apply rmatch_suffix in Hmatch as (s' & _ & [text ->] & Hk).
  exists text, s'. split; [done|].
  rewrite length_app in Hk.
  replace (length text + length s' - length s') with (length text) in Hk by lia.
  by rewrite take_app_length in Hk.
Qed.

Lemma rmatch_SKIP_YAML_REGEX {R} (s : jsstring)
    (k : jsstring -> option jsstring -> option R) (x : R) :
  rmatch SKIP_YAML_REGEX s None k = Some x ->
  exists gap1 gap2 body rest,
    s = line_feed ++ gap1 ++ js "skip:" ++ gap2 ++ line_feed ++ body ++ rest
    /\ Forall (fun c => is_whitespace c = true) gap1
    /\ Forall (fun c => is_whitespace c = true) gap2
    /\ k rest (Some body) = Some x.
Proof.
  unfold SKIP_YAML_REGEX. intros Hmatch.
  change (rmatch (RSeq ?a ?b) s None k)
    with (rmatch a s None (fun s' cap' => rmatch b s' cap' k)) in Hmatch.
  apply rmatch_char in Hmatch as (s1 & -> & Hmatch).
  change (rmatch (RSeq ?a ?b) s1 None k)
    with (rmatch a s1 None (fun s' cap' => rmatch b s' cap' k)) in Hmatch.
  apply rmatch_star_class in Hmatch as (gap1 & s2 & -> & Hgap1 & Hmatch).
  apply rmatch_literal in Hmatch as (s3 & -> & Hmatch).
  change (rmatch (RSeq ?a ?b) s3 None k)
    with (rmatch a s3 None (fun s' cap' => rmatch b s' cap' k)) in Hmatch.
  apply rmatch_star_class in Hmatch as (gap2 & s4 & -> & Hgap2 & Hmatch).
  change (rmatch (RSeq ?a ?b) s4 None k)
    with (rmatch a s4 None (fun s' cap' => rmatch b s' cap' k)) in Hmatch.
  apply rmatch_char in Hmatch as (s5 & -> & Hmatch).
  apply rmatch_group in Hmatch as (body & rest & -> & Hk).
  by exists gap1, gap2, body, rest.
Qed.

Lemma regex_exec_from_position (r : regex) (i : nat) (s : jsstring) (m : RegExpMatch) :
  regex_exec_from r i s = Some m ->
  exists pre rest,
    s = pre ++ matched m ++ rest
    /\ index m = i + length pre
    /\ rmatch r (matched m ++ rest) None (fun s' cap => Some (s', cap))
       = Some (rest, group1 m).
Proof.
  revert i m. induction s as [|c s IH]; intros i m; cbn [regex_exec_from].
  - destruct (rmatch r [] None _) as [[s' cap]|] eqn:Hmatch; [|done].
    intros [= <-]. cbn [matched index group1].
    pose proof Hmatch as Hsuffix.
    apply rmatch_suffix in Hsuffix as (s1 & cap1 & [pre Hpre] & [= -> ->]).
    symmetry in Hpre. apply app_eq_nil in Hpre as [-> ->].
    exists [], []. split_and!; [done | simpl; lia | done].
  - destruct (rmatch r (c :: s) None _) as [[s' cap]|] eqn:Hmatch.
    + intros [= <-]. cbn [matched index group1].
      pose proof Hmatch as Hsuffix.
      apply rmatch_suffix in Hsuffix as (s1 & cap1 & [pre Hpre] & [= -> ->]).
      change (S (length s)) with (length (c :: s)).
      rewrite Hpre, length_app.
      replace (length pre + length s' - length s') with (length pre) by lia.
      rewrite take_app_length. exists [], s'.
      split_and!; [done | simpl; lia | by rewrite <- Hpre].
    + intros Hrest. apply IH in Hrest as (pre & rest & -> & Hindex & Hmatch').
      exists (c :: pre), rest. split_and!; [done | simpl; lia | done].
Qed.

Lemma SKIP_YAML_REGEX_needs_marker (description : jsstring) (m : RegExpMatch) :
  regex_exec SKIP_YAML_REGEX description = Some m ->
  substring (js "skip:") description /\ In 10%N description.
Proof.
  intros Hexec. apply regex_exec_from_position in Hexec
    as (pre & rest & Hdesc & _ & Hmatch).
  apply rmatch_SKIP_YAML_REGEX in Hmatch
    as (gap1 & gap2 & body & rest' & Hshape & _).
  rewrite Hshape in Hdesc. split.
  - exists (pre ++ line_feed ++ gap1), (gap2 ++ line_feed ++ body ++ rest').
    rewrite Hdesc. by rewrite <- !app_assoc.
  - rewrite Hdesc. apply in_or_app. right. by left.
Qed.

(** X1.  A match of [SKIP_YAML_REGEX] in a description sits at [index];
    [match[0]] is a line feed, white space, the text [skip:], white space,
    a line feed and then the captured text, so [match[1]] is always there
    and is the tail of [match[0]]. *)
Theorem SKIP_YAML_REGEX_match_shape (description : jsstring) (m : RegExpMatch) :
  regex_exec SKIP_YAML_REGEX description = Some m ->
  exists pre gap1 gap2 body post,
    description = pre ++ matched m ++ post
    /\ length pre = index m
    /\ matched m = line_feed ++ gap1 ++ js "skip:" ++ gap2 ++ line_feed ++ body
    /\ Forall (fun c => is_whitespace c = true) gap1
    /\ Forall (fun c => is_whitespace c = true) gap2
    /\ group1 m = Some body
    /\ yamlContent m = body.
Proof.
  intros Hexec. apply regex_exec_from_position in Hexec
    as (pre & rest & Hdesc & Hindex & Hmatch).
  apply rmatch_SKIP_YAML_REGEX in Hmatch
    as (gap1 & gap2 & body & rest' & Hshape & Hgap1 & Hgap2 & [= -> Hgroup]).
  exists pre, gap1, gap2, body, rest.
  assert (Hmatched : matched m
                     = line_feed ++ gap1 ++ js "skip:" ++ gap2 ++ line_feed ++ body).
  { apply (app_inv_tail rest). rewrite Hshape. by rewrite <- !app_assoc. }
  split_and!; try done; try (simpl in Hindex; lia).
  unfold yamlContent. by rewrite <- Hgroup.
Qed.

Lemma SKIP_YAML_REGEX_match_shape_witness :
  regex_exec SKIP_YAML_REGEX (tool_description scalar_only_tool)
  = Some scalar_block_match
  /\ exists pre gap1 gap2 body post,
       tool_description scalar_only_tool = pre ++ matched scalar_block_match ++ post
       /\ length pre = index scalar_block_match
       /\ matched scalar_block_match
          = line_feed ++ gap1 ++ js "skip:" ++ gap2 ++ line_feed ++ body
       /\ Forall (fun c => is_whitespace c = true) gap1
       /\ Forall (fun c => is_whitespace c = true) gap2
       /\ group1 scalar_block_match = Some body
       /\ yamlContent scalar_block_match = body.
Proof.
  assert (Hexec : regex_exec SKIP_YAML_REGEX (tool_description scalar_only_tool)
                  = Some scalar_block_match) by (vm_compute; reflexivity).
  split; [exact Hexec|].
  exact (SKIP_YAML_REGEX_match_shape (tool_description scalar_only_tool)
           scalar_block_match Hexec).
Defined.

(** ** White space around clean descriptions *)

Lemma drop_while_head {A} (p : A -> bool) (l : list A) :
  match drop_while p l with
  | [] => True
  | x :: _ => p x = false
  end.
Proof.
  induction l as [|x l IH]; simpl; [done|].
  destruct (p x) eqn:Hx; [done | by rewrite Hx].
Qed.

Lemma drop_while_suffix {A} (p : A -> bool) (l : list A) :
  exists dropped, l = dropped ++ drop_while p l.
Proof.
  induction l as [|x l [dropped IH]]; simpl.
  - by exists [].
  - destruct (p x).
    + exists (x :: dropped). simpl. by f_equal.
    + by exists [].
Qed.

Lemma drop_while_fixed {A} (p : A -> bool) (l : list A) :
  match l with
  | [] => True
  | x :: _ => p x = false
  end ->
  drop_while p l = l.
Proof. destruct l as [|x l]; simpl; [done|]. by intros ->. Qed.

Lemma trim_ends (s : jsstring) :
  match trim s with
  | [] => True
  | c :: _ => is_whitespace c = false
  end
  /\ match rev (trim s) with
     | [] => True
     | c :: _ => is_whitespace c = false
     end.
Proof.
  unfold trim. rewrite rev_involutive.
  pose proof (drop_while_head is_whitespace s) as Hfront.
  pose proof (drop_while_head is_whitespace (rev (drop_while is_whitespace s))) as Hback.
  split; [|done].
  destruct (drop_while_suffix is_whitespace (rev (drop_while is_whitespace s)))
    as [dropped Hsplit].
  apply (f_equal (@rev N)) in Hsplit. rewrite rev_involutive, rev_app_distr in Hsplit.
  destruct (rev (drop_while is_whitespace (rev (drop_while is_whitespace s))))
    as [|c front]; [done|].
  rewrite Hsplit in Hfront. done.
Qed.

Lemma trim_trim (s : jsstring) : trim (trim s) = trim s.
Proof.
  destruct (trim_ends s) as [Hfront Hback].
  unfold trim at 1. rewrite (drop_while_fixed _ (trim s)) by done.
  rewrite (drop_while_fixed _ (rev (trim s))) by done.
  apply rev_involutive.
Qed.

Section ParserProperties.
Context `{Host}.

Lemma parseToolDescription_clean (description : jsstring) :
  exists text, clean (parseToolDescription description) = trim text.
Proof.
  unfold parseToolDescription.
  destruct (regex_exec SKIP_YAML_REGEX description) as [m|]; [|by eexists].
  destruct (yaml_load (yamlContent m)) as [v|e]; unfold mbind, result_bind.
  - destruct (negb (typeof_object v) || is_null v); by eexists.
  - by eexists.
Qed.

(** X2.  Whatever the description holds and whatever the loader answers,
    the clean description comes out trimmed: it neither begins nor ends
    with white space, and trimming it again changes nothing. *)
Theorem cleanDescription_trimmed (tool : Tool) :
  trim (cleanDescription (fst (parseTool tool))) = cleanDescription (fst (parseTool tool))
  /\ (forall c rest, cleanDescription (fst (parseTool tool)) = c :: rest ->
                     is_whitespace c = false)
  /\ (forall front c, cleanDescription (fst (parseTool tool)) = front ++ [c] ->
                      is_whitespace c = false).
Proof.
  unfold parseTool. cbn [fst cleanDescription].
  destruct (parseToolDescription_clean (tool_description tool)) as [text ->].
  destruct (trim_ends text) as [Hfront Hback]. split_and!.
  - apply trim_trim.
  - intros c rest Heq. by rewrite Heq in Hfront.
  - intros front c Heq. rewrite Heq, rev_app_distr in Hback. done.
Qed.

(** X3.  A description in which the text [skip:] does not occur, or that
    has no line feed, has no block: its clean description is the trimmed
    description, there is no configuration from it, and nothing is
    logged; the parsed tool keeps the configuration of the tool record. *)
Theorem parseTool_without_block (tool : Tool) :
  ~ substring (js "skip:") (tool_description tool)
  \/ ~ In 10%N (tool_description tool) ->
  parseToolDescription (tool_description tool)
  = {| clean := trim (tool_description tool); skipConfig := VUndefined; warnings := [] |}
  /\ parseTool tool
     = ({| name := tool_name tool;
           description := tool_description tool;
           skip := tool_skip tool;
           originalDescription := tool_description tool;
           cleanDescription := trim (tool_description tool) |}, []).
Proof.
  intros Hnone.
  assert (Hexec : regex_exec SKIP_YAML_REGEX (tool_description tool) = None).
  { destruct (regex_exec SKIP_YAML_REGEX (tool_description tool)) as [m|] eqn:Hexec;
      [|done].
    apply SKIP_YAML_REGEX_needs_marker in Hexec as [Hskip Hfeed].
    by destruct Hnone. }
  assert (Hparse : parseToolDescription (tool_description tool)
                   = {| clean := trim (tool_description tool);
                        skipConfig := VUndefined; warnings := [] |}).
  { unfold parseToolDescription. by rewrite Hexec. }
  split; [done|]. unfold parseTool. by rewrite Hparse.
Qed.

(** X4.  When the block loads as an object (a mapping or a sequence), the
    parsed tool carries what was loaded, whatever configuration the tool
    record has; nothing is logged, the name and the original description
    are those of the tool, and the clean description is the description
    without [match[0]], trimmed. *)
Theorem parseTool_loaded_block (tool : Tool) (m : RegExpMatch) (v : value) :
  regex_exec SKIP_YAML_REGEX (tool_description tool) = Some m ->
  yaml_load (yamlContent m) = Returns v ->
  typeof_object v = true ->
  v <> VNull ->
  snd (parseTool tool) = []
  /\ skip (fst (parseTool tool)) = v
  /\ name (fst (parseTool tool)) = tool_name tool
  /\ originalDescription (fst (parseTool tool)) = tool_description tool
  /\ exists pre post,
       tool_description tool = pre ++ matched m ++ post
       /\ cleanDescription (fst (parseTool tool)) = trim (pre ++ post).
Proof.
  intros Hexec Hload Hobject Hnull.
  destruct (replace_first_removes (tool_description tool) (matched m))
    as (pre & post & Hdesc & Hrep).
  { by apply regex_exec_from_substring with SKIP_YAML_REGEX 0. }
  assert (Hparse : parseToolDescription (tool_description tool)
                   = {| clean := trim (pre ++ post); skipConfig := v; warnings := [] |}).
  { unfold parseToolDescription. rewrite Hexec, Hload.
    unfold mbind, result_bind. rewrite Hobject, Hrep. by destruct v. }
  unfold parseTool. rewrite Hparse. cbn [fst snd warnings clean skipConfig
    cleanDescription skip name originalDescription].
  split_and!; [done | by destruct v | done | done | by exists pre, post].
Qed.

End ParserProperties.

Lemma parseTool_without_block_witness :
  (~ substring (js "skip:") (tool_description plain_tool)
   \/ ~ In 10%N (tool_description plain_tool))
  /\ parseTool plain_tool
     = ({| name := tool_name plain_tool;
           description := tool_description plain_tool;
           skip := tool_skip plain_tool;
           originalDescription := tool_description plain_tool;
           cleanDescription := trim (tool_description plain_tool) |}, []).
Proof.
  assert (Hfeed : ~ In 10%N (tool_description plain_tool)).
  { intros Hin.
    assert (Hall : forallb (fun c => negb (c =? 10)%N) (tool_description plain_tool)
                   = true) by (vm_compute; reflexivity).
    rewrite forallb_forall in Hall. by apply Hall in Hin. }
  split; [by right|].
  exact (proj2 (parseTool_without_block plain_tool (or_intror Hfeed))).
Defined.

Lemma parseTool_loaded_block_witness :
  exists m v,
    regex_exec SKIP_YAML_REGEX (tool_description base_tool) = Some m
    /\ yaml_load (yamlContent m) = Returns v
    /\ typeof_object v = true
    /\ v <> VNull
    /\ snd (parseTool base_tool) = []
    /\ skip (fst (parseTool base_tool)) = v
    /\ name (fst (parseTool base_tool)) = tool_name base_tool
    /\ originalDescription (fst (parseTool base_tool)) = tool_description base_tool
    /\ exists pre post,
         tool_description base_tool = pre ++ matched m ++ post
         /\ cleanDescription (fst (parseTool base_tool)) = trim (pre ++ post).
Proof.
  eexists _, _.
  assert (Hexec : regex_exec SKIP_YAML_REGEX (tool_description base_tool)
                  = Some {| index := 33;
                            matched := line_feed ++ line_feed ++ js "skip:" ++ line_feed
                                       ++ js "  keywords: [" ++ quote ++ js "base"
                                       ++ quote ++ js "]";
                            group1 := Some (js "  keywords: [" ++ quote ++ js "base"
                                            ++ quote ++ js "]") |})
    by (vm_compute; reflexivity).
  assert (Hload : yaml_load (yamlContent
                    {| index := 33;
                       matched := line_feed ++ line_feed ++ js "skip:" ++ line_feed
                                  ++ js "  keywords: [" ++ quote ++ js "base"
                                  ++ quote ++ js "]";
                       group1 := Some (js "  keywords: [" ++ quote ++ js "base"
                                       ++ quote ++ js "]") |})
                  = Returns (VObject [(js "keywords", VArray [VString (js "base")])]))
    by (vm_compute; reflexivity).
  split; [exact Hexec|]. split; [exact Hload|].
  split; [reflexivity|]. split; [discriminate|].
  exact (parseTool_loaded_block base_tool _ _ Hexec Hload eq_refl
           ltac:(discriminate)).
Defined.

(** ** What [parseTools] keeps *)

Section ParseToolsProperties.
Context `{Host}.

Lemma parseToolDescription_warnings (description : jsstring) :
  length (warnings (parseToolDescription description)) <= 1.
Proof.
  unfold parseToolDescription.
  destruct (regex_exec SKIP_YAML_REGEX description) as [m|]; [|simpl; lia].
  destruct (yaml_load (yamlContent m)) as [v|e]; unfold mbind, result_bind.
  - destruct (negb (typeof_object v) || is_null v); simpl; lia.
  - simpl; lia.
Qed.

(** X5.  [parseTools] gives one parsed tool per tool, in the order of the
    input, with the tool's name, with its description both as
    [description] and as [originalDescription]; and it logs at most one
    warning per tool. *)
Theorem parseTools_keeps (tools : list Tool) :
  map name (fst (parseTools tools)) = map tool_name tools
  /\ map description (fst (parseTools tools)) = map tool_description tools
  /\ map originalDescription (fst (parseTools tools)) = map tool_description tools
  /\ length (fst (parseTools tools)) = length tools
  /\ length (snd (parseTools tools)) <= length tools.
Proof.
  unfold parseTools. cbn [fst snd]. rewrite !map_map, length_map. split_and!; try done.
  induction tools as [|tool tools IH]; [done|].
  cbn [flat_map]. rewrite length_app. cbn [length].
  pose proof (parseToolDescription_warnings (tool_description tool)) as Hone.
  unfold parseTool at 1. cbn [snd]. lia.
Qed.

End ParseToolsProperties.

(** ** Construction, again *)

Lemma forEachM_outcome {A} (f : A -> result unit) (items : list A) :
  forEachM f items = Returns tt
  \/ exists x e, In x items /\ f x = Throws e /\ forEachM f items = Throws e.
Proof.
  induction items as [|x items IH]; simpl; [by left|].
  destruct (f x) as [[]|e] eqn:Hx; simpl.
  - destruct IH as [-> | (y & e & Hy & Hfy & ->)]; [by left|].
    right. exists y, e. split_and!; [by right | done | done].
  - right. exists x, e. split_and!; [by left | done | done].
Qed.

Lemma validateSkipConfig_shape (tool : ParsedTool) :
  skip tool = VUndefined \/ validateSkipConfig (skip tool) = true ->
  depends_on_array tool.
Proof.
  unfold depends_on_array, validateSkipConfig.
  intros [-> | Hvalid]; [by left|].
  destruct (skip tool) as [| | | | |items|fields] eqn:Hskip; try done.
  - by left.
  - cbn [get_prop_opt]. cbn [typeof_object is_null negb orb] in Hvalid.
    destruct (ToBoolean (get_prop (VObject fields) (js "depends_on"))) eqn:Hb;
      [|by left].
    destruct (get_prop (VObject fields) (js "depends_on")) eqn:Hdeps; try done.
    right. by eexists.
Qed.

Lemma validateDependencies_outcome (parsed : list ParsedTool) :
  Forall depends_on_array parsed ->
  validateDependencies parsed = Returns tt
  \/ exists tool entry,
       In tool parsed
       /\ In entry (depends_on_entries tool)
       /\ ~ resolved parsed entry
       /\ validateDependencies parsed
          = Throws (Error (dependency_message (name tool) entry)).
Proof.
  intros Hshape. unfold validateDependencies. cbv zeta.
  match goal with
  | |- forEachM ?f _ = _ \/ _ =>
      destruct (forEachM_outcome f parsed) as [-> | (tool & e & Hin & Htool & ->)]
  end; [by left|].
  right. exists tool. rewrite Forall_forall in Hshape.
  destruct (Hshape tool) as [Hfalsy | [items Hitems]].
  { by apply list_elem_of_In. }
  - by rewrite Hfalsy in Htool.
  - rewrite Hitems in Htool. cbn [ToBoolean] in Htool.
    rewrite (depends_on_entries_array _ _ Hitems).
    match type of Htool with
    | forEachM ?g _ = _ =>
        destruct (forEachM_outcome g items) as [Hok | (entry & e' & Hentry & Hthrow & Hall)]
    end; [congruence|].
    exists entry. rewrite Hall in Htool. injection Htool as <-.
    destruct (set_has _ entry) eqn:Hhas; [done|].
    cbn [negb] in Hthrow. injection Hthrow as <-.
    split_and!; [done | done | | done].
    intros Hres. apply set_has_resolved in Hres. congruence.
Qed.

Section ConstructionProperties.
Context `{Host}.

(** X6.  When every parsed configuration is absent or passes
    [validateSkipConfig], construction cannot fail with a [TypeError]: it
    returns an engine, or it throws the dependency [Error] for an entry of
    some tool that names no tool of the list. *)
Theorem validateSkipConfig_guards_construction (tools : list Tool) :
  Forall (fun tool => skip tool = VUndefined \/ validateSkipConfig (skip tool) = true)
    (fst (parseTools tools)) ->
  (exists this, fst (new_SkipTools tools) = Returns this)
  \/ exists tool entry,
       In tool (fst (parseTools tools))
       /\ In entry (depends_on_entries tool)
       /\ ~ resolved (fst (parseTools tools)) entry
       /\ fst (new_SkipTools tools)
          = Throws (Error (dependency_message (name tool) entry)).
Proof.
  intros Hvalid. unfold new_SkipTools. cbn [fst].
  destruct (validateDependencies_outcome (fst (parseTools tools)))
    as [-> | (tool & entry & Hin & Hentry & Hres & ->)].
  - eapply Forall_impl; [exact Hvalid|]. intros tool. apply validateSkipConfig_shape.
  - left. by eexists.
  - right. by exists tool, entry.
Qed.

(** X7.  A constructed engine starts with [lastProcessedMessageCount] 0
    and the tools in input order, and at construction and after any
    sequence of [filter] calls every [depends_on] entry of every tool of
    the engine is a string that names a tool of the engine. *)
Theorem constructed_engine_invariant (tools : list Tool) (this : SkipTools)
    (calls : list FilterOptions) :
  fst (new_SkipTools tools) = Returns this ->
  lastProcessedMessageCount this = 0
  /\ map name (parsedTools this) = map tool_name tools
  /\ forall tool entry,
       In tool (parsedTools (fst (filter_calls this calls))) ->
       In entry (depends_on_entries tool) ->
       exists dependency,
         In dependency (parsedTools (fst (filter_calls this calls)))
         /\ entry = VString (name dependency).
Proof.
  unfold new_SkipTools. cbn [fst].
  destruct (validateDependencies (fst (parseTools tools))) as [[]|e] eqn:Hvalid;
    [|done].
  intros [= <-]. cbn [lastProcessedMessageCount parsedTools].
  rewrite filter_calls_parsedTools. cbn [parsedTools].
  split_and!; [done | |].
  - unfold parseTools. cbn [fst]. by rewrite map_map.
  - apply validateDependencies_returns; [|done].
    by apply validateDependencies_shape.
Qed.

(** X8.  For a constructed engine, after any sequence of [filter] calls,
    [getCleanDescriptions] lists the names of the input tools in input
    order, each with a description that is trimmed. *)
Theorem getCleanDescriptions_constructed (tools : list Tool) (this : SkipTools)
    (calls : list FilterOptions) :
  fst (new_SkipTools tools) = Returns this ->
  map fst (getCleanDescriptions (fst (filter_calls this calls))) = map tool_name tools
  /\ Forall (fun entry => trim (snd entry) = snd entry)
       (getCleanDescriptions (fst (filter_calls this calls))).
Proof.
  unfold new_SkipTools. cbn [fst].
  destruct (validateDependencies (fst (parseTools tools))) as [[]|e]; [|done].
  intros [= <-]. unfold getCleanDescriptions.
  rewrite filter_calls_parsedTools. cbn [parsedTools].
  unfold parseTools. cbn [fst]. rewrite !map_map. split; [done|].
  apply Forall_forall. intros entry Hentry.
  apply list_elem_of_In, in_map_iff in Hentry as (tool & <- & _). cbn [snd].
  unfold parseTool. cbn [fst cleanDescription].
  destruct (parseToolDescription_clean (tool_description tool)) as [text ->].
  apply trim_trim.
Qed.

End ConstructionProperties.

Lemma sample_parsed_validated :
  Forall (fun tool => skip tool = VUndefined \/ validateSkipConfig (skip tool) = true)
    (fst (parseTools sample_tools)).
Proof.
  unfold sample_tools, parseTools. cbn [fst map].
  constructor; [right; by vm_compute|].
  constructor; [right; by vm_compute|].
  constructor; [left; by vm_compute | constructor].
Qed.

Lemma validateSkipConfig_guards_construction_witness :
  Forall (fun tool => skip tool = VUndefined \/ validateSkipConfig (skip tool) = true)
    (fst (parseTools sample_tools))
  /\ ((exists this, fst (new_SkipTools sample_tools) = Returns this)
      \/ exists tool entry,
           In tool (fst (parseTools sample_tools))
           /\ In entry (depends_on_entries tool)
           /\ ~ resolved (fst (parseTools sample_tools)) entry
           /\ fst (new_SkipTools sample_tools)
              = Throws (Error (dependency_message (name tool) entry))).
Proof.
  split; [apply sample_parsed_validated|].
  exact (validateSkipConfig_guards_construction sample_tools sample_parsed_validated).
Defined.

Lemma constructed_engine_invariant_witness :
  fst (new_SkipTools sample_tools) = Returns sample_engine
  /\ lastProcessedMessageCount sample_engine = 0
  /\ map name (parsedTools sample_engine) = map tool_name sample_tools
  /\ forall tool entry,
       In tool (parsedTools (fst (filter_calls sample_engine
                                    [ask [user_says "base"]]))) ->
       In entry (depends_on_entries tool) ->
       exists dependency,
         In dependency (parsedTools (fst (filter_calls sample_engine
                                            [ask [user_says "base"]])))
         /\ entry = VString (name dependency).
Proof.
  assert (Hnew : fst (new_SkipTools sample_tools) = Returns sample_engine)
    by (vm_compute; reflexivity).
  split; [exact Hnew|].
  exact (constructed_engine_invariant sample_tools sample_engine
           [ask [user_says "base"]] Hnew).
Defined.

Lemma getCleanDescriptions_constructed_witness :
  fst (new_SkipTools sample_tools) = Returns sample_engine
  /\ map fst (getCleanDescriptions (fst (filter_calls sample_engine [ask []])))
     = map tool_name sample_tools
  /\ Forall (fun entry => trim (snd entry) = snd entry)
       (getCleanDescriptions (fst (filter_calls sample_engine [ask []]))).
Proof.
  assert (Hnew : fst (new_SkipTools sample_tools) = Returns sample_engine)
    by (vm_compute; reflexivity).
  split; [exact Hnew|].
  exact (getCleanDescriptions_constructed sample_tools sample_engine [ask []] Hnew).
Defined.

(** ** Results of [filter] *)

Lemma addDependencies_by_name (this : SkipTools) (filtered expanded : list ParsedTool) :
  addDependencies this filtered = Returns expanded ->
  exists names : gset jsstring,
    expanded = List.filter (fun tool => bool_decide (name tool ∈ names))
                 (parsedTools this).
Proof.
  unfold addDependencies.
  destruct (foldM add_dependency_names _ filtered) as [names|e]; simpl; [|done].
  intros [= <-]. by exists names.
Qed.

Lemma slice_to_take {A} (l : list A) (z : Z) :
  exists n, slice_to l z = take n l.
Proof. unfold slice_to. destruct (z <? 0)%Z; by eexists. Qed.

Section FilterResults.
Context `{Host}.

Lemma filter_limit (this : SkipTools) (options : FilterOptions) (res : FilterResult) :
  snd (filter this options) = Returns res ->
  exists res0,
    snd (filter this (without_limit options)) = Returns res0
    /\ tools res
       = match maxTools options with
         | Some z =>
             if negb (z =? 0)%Z && (z <? Z.of_nat (length (tools res0)))%Z
             then slice_to (tools res0) z
             else tools res0
         | None => tools res0
         end
    /\ (exists names : gset jsstring,
          tools res0 = List.filter (fun tool => bool_decide (name tool ∈ names))
                         (parsedTools this)).
Proof.
  unfold filter, without_limit.
  cbn [snd parsedTools messages maxTools onlyNewMessages].
  destruct (if negb _ then _ else _) as [kept|e]; simpl; [|done].
  destruct (addDependencies _ kept) as [expanded|e] eqn:Hadd; simpl; [|done].
  intros [= <-]. eexists. split; [done|]. cbn [tools]. split; [done|].
  apply addDependencies_by_name in Hadd as [names ->]. by exists names.
Qed.

Lemma filter_tools_sublist (this : SkipTools) (options : FilterOptions)
    (res : FilterResult) :
  snd (filter this options) = Returns res ->
  tools res `sublist_of` parsedTools this.
Proof.
  intros Hres.
  destruct (filter_limit this options res Hres) as (res0 & _ & -> & names & ->).
  assert (Hfilter : List.filter (fun tool => bool_decide (name tool ∈ names))
                      (parsedTools this) `sublist_of` parsedTools this)
    by apply filter_sublist_of.
  destruct (maxTools options) as [z|]; [|done].
  destruct (negb (z =? 0)%Z && _); [|done].
  destruct (slice_to_take (List.filter (fun tool => bool_decide (name tool ∈ names))
                             (parsedTools this)) z) as [n ->].
  etrans; [apply sublist_take | done].
Qed.

(** X9.  Whatever the engine and the options, a result that [filter]
    returns lists tools of the engine in construction order, possibly
    with gaps, and its two counts are the length of that list and the
    length of the engine's list. *)
Theorem filter_result_sublist (this : SkipTools) (options : FilterOptions)
    (res : FilterResult) :
  snd (filter this options) = Returns res ->
  tools res `sublist_of` parsedTools this
  /\ filteredCount res = length (tools res)
  /\ totalOriginalCount res = length (parsedTools this)
  /\ filteredCount res <= totalOriginalCount res.
Proof.
  intros Hres.
  destruct (filter_result_counts this options res Hres) as (_ & Htotal & Hcount).
  pose proof (filter_tools_sublist this options res Hres) as Hsub.
  split_and!; [done | done | done |].
  rewrite Hcount, Htotal. by apply sublist_length.
Qed.

(** X23.  [filter] does not create duplicates: when the names of the
    engine's tools are pairwise different, so are the names of the tools
    of every result. *)
Theorem filter_keeps_names_distinct (this : SkipTools) (options : FilterOptions)
    (res : FilterResult) :
  snd (filter this options) = Returns res ->
  NoDup (map name (parsedTools this)) ->
  NoDup (map name (tools res)).
Proof.
  intros Hres Hnodup.
  apply (sublist_NoDup (map name (tools res)) (map name (parsedTools this)));
    [done|].
  apply (fmap_sublist name). by apply filter_tools_sublist with options.
Qed.

(** X10.  With a positive [maxTools], the tools returned are the first
    [maxTools] tools of what the same call returns without [maxTools] (all
    of them if there are fewer), so the result is never longer than
    [maxTools] and is never reordered by the limit. *)
Theorem maxTools_prefix (this : SkipTools) (options : FilterOptions)
    (res : FilterResult) (z : Z) :
  snd (filter this options) = Returns res ->
  maxTools options = Some z ->
  (0 < z)%Z ->
  exists res0,
    snd (filter this (without_limit options)) = Returns res0
    /\ tools res = take (Z.to_nat z) (tools res0)
    /\ length (tools res) = Nat.min (Z.to_nat z) (length (tools res0))
    /\ (Z.of_nat (length (tools res)) <= z)%Z.
Proof.
  intros Hres Hmax Hz.
  destruct (filter_limit this options res Hres) as (res0 & Hres0 & Htools & _).
  exists res0. rewrite Hmax in Htools.
  assert (Htake : tools res = take (Z.to_nat z) (tools res0)).
  { rewrite Htools. unfold slice_to.
    destruct (z <? Z.of_nat (length (tools res0)))%Z eqn:Hlt.
    - replace (negb (z =? 0)%Z) with true by (symmetry; apply negb_true_iff; lia).
      replace (z <? 0)%Z with false by lia. cbn [andb]. f_equal. lia.
    - rewrite andb_false_r. symmetry. apply take_ge. lia. }
  split_and!; [done | done | by rewrite Htake, length_take |].
  rewrite Htake, length_take. lia.
Qed.

(** X11.  [maxTools] 0 limits nothing, and a negative [maxTools] -k does
    not limit the result to a size: it removes the last k tools of what
    the same call returns without [maxTools]. *)
Theorem maxTools_zero_or_negative (this : SkipTools) (options : FilterOptions)
    (res : FilterResult) (z : Z) :
  snd (filter this options) = Returns res ->
  maxTools options = Some z ->
  (z <= 0)%Z ->
  exists res0,
    snd (filter this (without_limit options)) = Returns res0
    /\ tools res = take (length (tools res0) - Z.to_nat (- z)) (tools res0).
Proof.
  intros Hres Hmax Hz.
  destruct (filter_limit this options res Hres) as (res0 & Hres0 & Htools & _).
  exists res0. split; [done|]. rewrite Hmax in Htools. rewrite Htools.
  destruct (z =? 0)%Z eqn:Hzero.
  - apply Z.eqb_eq in Hzero. cbn [negb andb]. symmetry. apply take_ge. lia.
  - apply Z.eqb_neq in Hzero. cbn [negb andb].
    replace (z <? Z.of_nat (length (tools res0)))%Z with true
      by (symmetry; apply Z.ltb_lt; lia).
    unfold slice_to.
    replace (z <? 0)%Z with true by (symmetry; apply Z.ltb_lt; lia).
    f_equal. lia.
Qed.

(** X12.  With [onlyNewMessages] set and a history that is not empty, the
    reason always reports 0 new messages, however many messages the window
    held: [generateFilterReason] reads [lastProcessedMessageCount] after
    [filter] has set it to the length of the history. *)
Theorem reason_counts_no_new_messages (this : SkipTools) (options : FilterOptions)
    (res : FilterResult) :
  snd (filter this options) = Returns res ->
  onlyNewMessages options = Some true ->
  messages options <> [] ->
  js "filtered by keywords from 0 new messages, dependencies added"
     `prefix_of` reason res
  /\ (maxTools options = None ->
      reason res = js "filtered by keywords from 0 new messages, dependencies added").
Proof.
  unfold filter. cbn [snd parsedTools].
  destruct (if negb _ then _ else _) as [kept|e]; simpl; [|done].
  destruct (addDependencies _ kept) as [expanded|e]; simpl; [|done].
  intros [= <-] Honly Hmsgs. cbn [reason]. unfold generateFilterReason.
  cbn [lastProcessedMessageCount]. rewrite Honly. cbn [option_truthy].
  replace (0 <? length (messages options)) with true
    by (symmetry; apply Nat.ltb_lt; destruct (messages options); simpl; [done | lia]).
  rewrite Z.sub_diag, Z.max_id.
  change (js "filtered by keywords from " ++ Z_to_js 0 ++ js " " ++ js "new"
          ++ js " messages, dependencies added")
    with (js "filtered by keywords from 0 new messages, dependencies added").
  destruct (maxTools options) as [z|]; [|split; [done | done]].
  split; [|done].
  destruct (negb (z =? 0)%Z && _); [|done].
  by eexists.
Qed.

End FilterResults.

Lemma filter_result_sublist_witness :
  exists res,
    snd (filter sample_engine (ask [user_says "I need the dependent tool"]))
    = Returns res
    /\ tools res `sublist_of` parsedTools sample_engine
    /\ filteredCount res = length (tools res)
    /\ totalOriginalCount res = length (parsedTools sample_engine)
    /\ filteredCount res <= totalOriginalCount res.
Proof.
  assert (Hres : exists res,
            snd (filter sample_engine (ask [user_says "I need the dependent tool"]))
            = Returns res) by (eexists; vm_compute; reflexivity).
  destruct Hres as [res Hres]. exists res. split; [exact Hres|].
  exact (filter_result_sublist sample_engine _ res Hres).
Defined.

Lemma maxTools_prefix_witness :
  exists res,
    snd (filter sample_engine
           {| messages := [user_says "I need the dependent tool"];
              maxTools := Some 2%Z; onlyNewMessages := None |}) = Returns res
    /\ (0 < 2)%Z
    /\ exists res0,
         snd (filter sample_engine
                (without_limit
                   {| messages := [user_says "I need the dependent tool"];
                      maxTools := Some 2%Z; onlyNewMessages := None |}))
         = Returns res0
         /\ tools res = take (Z.to_nat 2) (tools res0)
         /\ length (tools res) = Nat.min (Z.to_nat 2) (length (tools res0))
         /\ (Z.of_nat (length (tools res)) <= 2)%Z.
Proof.
  assert (Hres : exists res,
            snd (filter sample_engine
                   {| messages := [user_says "I need the dependent tool"];
                      maxTools := Some 2%Z; onlyNewMessages := None |})
            = Returns res) by (eexists; vm_compute; reflexivity).
  destruct Hres as [res Hres]. exists res. split; [exact Hres|].
  split; [reflexivity|].
  exact (maxTools_prefix sample_engine _ res 2%Z Hres eq_refl eq_refl).
Defined.

Lemma maxTools_zero_or_negative_witness :
  exists res,
    snd (filter sample_engine
           {| messages := []; maxTools := Some (-1)%Z; onlyNewMessages := None |})
    = Returns res
    /\ (-1 <= 0)%Z
    /\ exists res0,
         snd (filter sample_engine
                (without_limit
                   {| messages := []; maxTools := Some (-1)%Z;
                      onlyNewMessages := None |})) = Returns res0
         /\ tools res = take (length (tools res0) - Z.to_nat (- -1)) (tools res0).
Proof.
  assert (Hres : exists res,
            snd (filter sample_engine
                   {| messages := []; maxTools := Some (-1)%Z;
                      onlyNewMessages := None |})
            = Returns res) by (eexists; vm_compute; reflexivity).
  destruct Hres as [res Hres]. exists res. split; [exact Hres|].
  split; [discriminate|].
  exact (maxTools_zero_or_negative sample_engine _ res (-1)%Z Hres eq_refl
           ltac:(discriminate)).
Defined.

(** With [maxTools] -1 and three tools, two come back. *)
Example maxTools_minus_one :
  (fun r => match r with
            | Returns res => Some (map name (tools res))
            | Throws _ => None
            end)
    (snd (filter sample_engine
            {| messages := []; maxTools := Some (-1)%Z; onlyNewMessages := None |}))
  = Some [js "base_tool"; js "dependent_tool"].
Proof. vm_compute. reflexivity. Qed.

Lemma reason_counts_no_new_messages_witness :
  exists res,
    snd (filter sample_engine
           {| messages := [user_says "base"; user_says "dependent"];
              maxTools := None; onlyNewMessages := Some true |}) = Returns res
    /\ [user_says "base"; user_says "dependent"] <> []
    /\ js "filtered by keywords from 0 new messages, dependencies added"
         `prefix_of` reason res
    /\ (@None Z = None ->
        reason res = js "filtered by keywords from 0 new messages, dependencies added").
Proof.
  assert (Hres : exists res,
            snd (filter sample_engine
                   {| messages := [user_says "base"; user_says "dependent"];
                      maxTools := None; onlyNewMessages := Some true |})
            = Returns res) by (eexists; vm_compute; reflexivity).
  destruct Hres as [res Hres]. exists res. split; [exact Hres|].
  split; [discriminate|].
  exact (reason_counts_no_new_messages sample_engine _ res Hres eq_refl
           ltac:(discriminate)).
Defined.

(** ** What [filter] selects *)

Section Selection.
Context `{Host}.

Lemma filterByKeywords_keep (tools : list ParsedTool) (query : jsstring) :
  Forall keywords_shaped tools ->
  exists keep : ParsedTool -> bool,
    filterByKeywords tools query = Returns (List.filter keep tools)
    /\ (forall tool, In tool tools ->
          (keep tool = true
           <-> keywords_of tool = []
               \/ exists keyword,
                    In keyword (keywords_of tool)
                    /\ keyword_matches_spec (toLowerCase query) (toLowerCase keyword))).
Proof.
  intros Hshaped. unfold filterByKeywords.
  exists (fun tool =>
            match tool_passes (toLowerCase query)
                    (List.filter (fun word => 2 <? length word)
                       (split_ws (toLowerCase query))) tool with
            | Returns b => b
            | Throws _ => false
            end).
  rewrite Forall_forall in Hshaped. split.
  - apply filterM_returns. intros tool Hin.
    destruct (tool_passes_shaped query tool) as (b & Hb & _).
    { by apply Hshaped, list_elem_of_In. }
    by rewrite Hb.
  - intros tool Hin.
    destruct (tool_passes_shaped query tool) as (b & Hb & Hnone & Hsome).
    { by apply Hshaped, list_elem_of_In. }
    rewrite Hb. destruct (keywords_of tool) as [|k ks] eqn:Hks.
    + split; [by left | intros _; by apply Hnone].
    + rewrite Hsome by done. split; [by right|]. by intros [? | ?].
Qed.

(** X13.  On a well-formed engine and without [maxTools], [filter]
    returns exactly the tools of the engine that are selected or share a
    name with, or are named in [depends_on] by, a selected tool; a tool is
    selected when the query is empty, when it has no keywords, or when one
    of its keywords matches the query. *)
Theorem filter_selects (this : SkipTools) (options : FilterOptions) :
  well_formed this ->
  maxTools options = None ->
  exists res,
    snd (filter this options) = Returns res
    /\ forall tool,
         In tool (tools res)
         <-> In tool (parsedTools this)
             /\ exists selected,
                  In selected (parsedTools this)
                  /\ (Extracted.query
                        (extractQueryFromMessages this (messages options)
                           (option_truthy (onlyNewMessages options))) = []
                      \/ keywords_of selected = []
                      \/ exists keyword,
                           In keyword (keywords_of selected)
                           /\ keyword_matches_spec
                                (toLowerCase
                                   (Extracted.query
                                      (extractQueryFromMessages this (messages options)
                                         (option_truthy (onlyNewMessages options)))))
                                (toLowerCase keyword))
                  /\ (name selected = name tool
                      \/ In (name tool) (depends_on_of selected)).
Proof.
  intros [Hvalid Hshaped] Hmax. unfold filter. cbn [snd parsedTools]. rewrite Hmax.
  set (query := Extracted.query _).
  assert (Hdeps : Forall depends_on_array (parsedTools this))
    by by apply validateDependencies_shape.
  assert (Hstep1 : exists keep1 : ParsedTool -> bool,
            (if negb (Nat.eqb (length query) 0)
             then filterByKeywords (parsedTools this) query
             else Returns (parsedTools this))
            = Returns (List.filter keep1 (parsedTools this))
            /\ forall tool, In tool (parsedTools this) ->
                 (keep1 tool = true
                  <-> query = []
                      \/ keywords_of tool = []
                      \/ exists keyword,
                           In keyword (keywords_of tool)
                           /\ keyword_matches_spec (toLowerCase query)
                                (toLowerCase keyword))).
  { destruct (negb (Nat.eqb (length query) 0)) eqn:Hq.
    - destruct (filterByKeywords_keep (parsedTools this) query Hshaped)
        as (keep1 & Hkeep1 & Hspec).
      exists keep1. split; [done|].
      intros tool Hin. rewrite (Hspec tool Hin). split; [by right|].
      intros [Hempty | Hrest]; [|done]. by rewrite Hempty in Hq.
    - exists (fun _ => true). split; [by rewrite filter_all|].
      intros tool _. split; [|done]. intros _. left.
      by destruct query. }
  destruct Hstep1 as (keep1 & -> & Hkeep1). simpl.
  destruct (addDependencies_expansion
              {| parsedTools := parsedTools this;
                 lastProcessedMessageCount := length (messages options) |}
              (List.filter keep1 (parsedTools this)))
    as (keep2 & -> & Hkeep2).
  { by apply filter_In_shape. }
  simpl. eexists. split; [done|]. cbn [tools]. intros tool.
  rewrite filter_In, Hkeep2. unfold in_expansion. split.
  - intros [Hin Hexp]. split; [done|].
    destruct Hexp as [(selected & Hsel & Hname) | (selected & Hsel & Hdep)];
      apply filter_In in Hsel as [Hsel Hkept];
      apply (Hkeep1 _ Hsel) in Hkept; exists selected.
    + split_and!; [done | done | by left].
    + split_and!; [done | done | by right].
  - intros [Hin (selected & Hsel & Hwhy & [Hname | Hdep])].
    + split; [done|]. left. exists selected. split; [|done].
      apply filter_In. split; [done|]. by apply Hkeep1.
    + split; [done|]. right. exists selected. split; [|done].
      apply filter_In. split; [done|]. by apply Hkeep1.
Qed.

End Selection.

Lemma filter_selects_witness :
  well_formed sample_engine
  /\ exists res,
       snd (filter sample_engine (ask [user_says "I need the dependent tool"]))
       = Returns res
       /\ forall tool,
            In tool (tools res)
            <-> In tool (parsedTools sample_engine)
                /\ exists selected,
                     In selected (parsedTools sample_engine)
                     /\ (Extracted.query
                           (extractQueryFromMessages sample_engine
                              [user_says "I need the dependent tool"] false) = []
                         \/ keywords_of selected = []
                         \/ exists keyword,
                              In keyword (keywords_of selected)
                              /\ keyword_matches_spec
                                   (toLowerCase
                                      (Extracted.query
                                         (extractQueryFromMessages sample_engine
                                            [user_says "I need the dependent tool"]
                                            false)))
                                   (toLowerCase keyword))
                     /\ (name selected = name tool
                         \/ In (name tool) (depends_on_of selected)).
Proof.
  split; [apply sample_engine_well_formed|].
  exact (filter_selects sample_engine (ask [user_says "I need the dependent tool"])
           sample_engine_well_formed eq_refl).
Defined.

(** ** The query *)

Lemma join_cons (sep x : jsstring) (rest : list jsstring) :
  rest <> [] -> join sep (x :: rest) = x ++ sep ++ join sep rest.
Proof. by destruct rest. Qed.

Lemma join_empty (sep : jsstring) (parts : list jsstring) :
  Forall (fun part => part <> []) parts ->
  join sep parts = [] -> parts = [].
Proof.
  intros Hparts. destruct Hparts as [|x rest Hx _]; [done|].
  destruct rest; simpl; [done|]. by destruct x.
Qed.

Lemma join_app (sep : jsstring) (l1 l2 : list jsstring) :
  l1 <> [] -> l2 <> [] ->
  join sep (l1 ++ l2) = join sep l1 ++ sep ++ join sep l2.
Proof.
  intros Hl1 Hl2. destruct l1 as [|x l1]; [done|]. clear Hl1. revert x.
  induction l1 as [|y l1 IH]; intros x.
  - simpl. by destruct l2.
  - change ((x :: y :: l1) ++ l2) with (x :: (y :: l1) ++ l2).
    rewrite join_cons by done. rewrite IH.
    rewrite (join_cons sep x (y :: l1)) by done. by rewrite <- !app_assoc.
Qed.

Lemma message_texts_app (a b : list Message) :
  message_texts (a ++ b) = message_texts a ++ message_texts b.
Proof.
  unfold message_texts.
  by rewrite !List.filter_app, omap_app, List.filter_app, map_app.
Qed.

Lemma message_texts_nonempty (msgs : list Message) :
  Forall (fun text => text <> []) (message_texts msgs).
Proof.
  unfold message_texts. apply Forall_forall. intros text Htext.
  apply list_elem_of_In, in_map_iff in Htext as (raw & <- & Hraw).
  apply filter_In in Hraw as [_ Hlong].
  apply andb_true_iff in Hlong as [_ Hlong]. apply Nat.ltb_lt in Hlong.
  destruct (trim raw); simpl in *; [lia | done].
Qed.

Lemma message_texts_silent (msg : Message) :
  silent msg -> message_texts [msg] = [].
Proof.
  unfold silent, message_texts.
  intros [Htool | [Habsent | (text & Htext & Htrim)]]; simpl.
  - by rewrite Htool.
  - destruct (negb (is_tool_traffic msg)); [|done].
    simpl. by rewrite Habsent.
  - destruct (negb (is_tool_traffic msg)); [|done]. simpl.
    destruct (content_truthy (content msg)); [|done]. simpl.
    rewrite Htext. simpl. rewrite Htrim. simpl. by rewrite andb_false_r.
Qed.

Lemma extractQuery_texts (this : SkipTools) (msgs : list Message) :
  Extracted.query (extractQueryFromMessages this msgs false)
  = join (js " ") (message_texts msgs).
Proof. done. Qed.

Lemma join_queries_texts (a b : list Message) :
  join (js " ") (message_texts (a ++ b))
  = join_queries (join (js " ") (message_texts a)) (join (js " ") (message_texts b)).
Proof.
  rewrite message_texts_app.
  pose proof (message_texts_nonempty a) as Ha.
  pose proof (message_texts_nonempty b) as Hb.
  destruct (message_texts a) as [|x ta] eqn:Hta; [done|].
  destruct (message_texts b) as [|y tb] eqn:Htb.
  - rewrite app_nil_r. change (join (js " ") []) with (@nil N).
    unfold join_queries. by destruct (join (js " ") (x :: ta)).
  - rewrite join_app by done. unfold join_queries.
    destruct (join (js " ") (x :: ta)) as [|c qa] eqn:Hqa.
    { by apply join_empty in Hqa. }
    destruct (join (js " ") (y :: tb)) as [|d qb] eqn:Hqb.
    { by apply join_empty in Hqb. }
    done.
Qed.

(** X14.  A tool response, an assistant message that carries tool calls,
    a message without content, and a message whose text is empty or white
    space only give no text to the query.  When the whole history is read
    ([onlyNewMessages] false), the query of a history is the query of the
    history without that message, wherever the message stands.  When the
    window is read ([onlyNewMessages] true), the same holds for a message
    that stands in the window, at or after the index the engine has
    recorded; a message before that index still takes a place in the
    count, and the theorem says nothing about removing it. *)
Theorem silent_message_ignored (this : SkipTools) (before after : list Message)
    (msg : Message) :
  silent msg ->
  Extracted.query (extractQueryFromMessages this (before ++ msg :: after) false)
  = Extracted.query (extractQueryFromMessages this (before ++ after) false)
  /\ (lastProcessedMessageCount this <= length before ->
      Extracted.query (extractQueryFromMessages this (before ++ msg :: after) true)
      = Extracted.query (extractQueryFromMessages this (before ++ after) true)).
Proof.
  intros Hsilent.
  assert (Hremove : forall l,
            join (js " ") (message_texts (l ++ msg :: after))
            = join (js " ") (message_texts (l ++ after))).
  { intros l. change (msg :: after) with ([msg] ++ after).
    by rewrite !message_texts_app, (message_texts_silent msg Hsilent). }
  split.
  - rewrite !extractQuery_texts. apply Hremove.
  - intros Hwindow. rewrite !extractQuery_window, !extractQuery_texts.
    rewrite !drop_app_le by done. apply Hremove.
Qed.

(** X15.  The query of a history put together from two parts is the two
    queries joined by one space (or the one that is not empty); so the
    query of a whole history is the query of the messages the engine has
    counted joined with the query of the window that [onlyNewMessages]
    selects. *)
Theorem query_of_concatenation (this : SkipTools) (a b msgs : list Message) :
  Extracted.query (extractQueryFromMessages this (a ++ b) false)
  = join_queries (Extracted.query (extractQueryFromMessages this a false))
      (Extracted.query (extractQueryFromMessages this b false))
  /\ Extracted.query (extractQueryFromMessages this msgs false)
     = join_queries
         (Extracted.query
            (extractQueryFromMessages this
               (take (lastProcessedMessageCount this) msgs) false))
         (Extracted.query (extractQueryFromMessages this msgs true)).
Proof.
  split.
  - rewrite !extractQuery_texts. apply join_queries_texts.
  - rewrite extractQuery_window, !extractQuery_texts, <- join_queries_texts.
    by rewrite take_drop.
Qed.

(** ** Keywords *)

Lemma startsWith_includes (s p : jsstring) :
  startsWith s p = true -> includes s p = true.
Proof. intros Hstart. destruct s; simpl; by rewrite Hstart. Qed.

(** X16.  The two prefix tests of the word-level match never decide: a
    word overlaps a keyword exactly when it is longer than two code units
    and one of the two contains the other. *)
Theorem word_overlaps_containment (keywordLower word : jsstring) :
  word_overlaps keywordLower word
  = (2 <? length word) && (includes keywordLower word || includes word keywordLower).
Proof.
  unfold word_overlaps. f_equal.
  destruct (includes keywordLower word) eqn:H1; [done|].
  destruct (includes word keywordLower) eqn:H2; [done|].
  destruct (startsWith keywordLower word) eqn:H3.
  { apply startsWith_includes in H3. congruence. }
  destruct (startsWith word keywordLower) eqn:H4; [|done].
  apply startsWith_includes in H4. congruence.
Qed.

Section Keywords.
Context `{Host}.

(** X17.  A keyword whose lower-case form is the empty string matches
    every query: a tool of the declared shape that lists one passes the
    keyword test whatever the query is. *)
Theorem empty_keyword_matches_all (tool : ParsedTool) (keyword query : jsstring) :
  keywords_shaped tool ->
  In keyword (keywords_of tool) ->
  toLowerCase keyword = [] ->
  tool_passes (toLowerCase query)
    (List.filter (fun word => 2 <? length word) (split_ws (toLowerCase query)))
    tool = Returns true.
Proof.
  intros Hshaped Hin Hlower.
  destruct (tool_passes_shaped query tool Hshaped) as (b & -> & _ & Hsome).
  f_equal. apply Hsome.
  - intros Hnone. by rewrite Hnone in Hin.
  - exists keyword. split; [done|]. left. rewrite Hlower.
    by exists [], (toLowerCase query).
Qed.

End Keywords.

Lemma silent_message_ignored_witness :
  silent tool_response
  /\ Extracted.query
       (extractQueryFromMessages sample_engine
          ([user_says "base"] ++ tool_response :: [user_says "more"]) false)
     = Extracted.query
         (extractQueryFromMessages sample_engine
            ([user_says "base"] ++ [user_says "more"]) false)
  /\ lastProcessedMessageCount (fst (filter sample_engine (ask [user_says "hello"])))
     <= length [user_says "old"]
  /\ Extracted.query
       (extractQueryFromMessages (fst (filter sample_engine (ask [user_says "hello"])))
          ([user_says "old"] ++ tool_response :: [user_says "base"]) true)
     = Extracted.query
         (extractQueryFromMessages (fst (filter sample_engine (ask [user_says "hello"])))
            ([user_says "old"] ++ [user_says "base"]) true).
Proof.
  assert (Hsilent : silent tool_response) by (left; reflexivity).
  assert (Hwindow : lastProcessedMessageCount
                      (fst (filter sample_engine (ask [user_says "hello"])))
                    <= length [user_says "old"]) by (simpl; lia).
  split; [exact Hsilent|].
  split; [exact (proj1 (silent_message_ignored sample_engine [user_says "base"]
                          [user_says "more"] tool_response Hsilent))|].
  split; [exact Hwindow|].
  exact (proj2 (silent_message_ignored
                  (fst (filter sample_engine (ask [user_says "hello"])))
                  [user_says "old"] [user_says "base"] tool_response Hsilent)
           Hwindow).
Defined.

(** A tool response before the window is another matter: it takes a place
    in the count, so removing it moves the window. *)
Example silent_message_before_window :
  Extracted.query
    (extractQueryFromMessages (fst (filter sample_engine (ask [user_says "hello"])))
       ([] ++ tool_response :: [user_says "base"]) true) = js "base"
  /\ Extracted.query
       (extractQueryFromMessages (fst (filter sample_engine (ask [user_says "hello"])))
          ([] ++ [user_says "base"]) true) = [].
Proof. split; vm_compute; reflexivity. Qed.

Lemma empty_keyword_matches_all_witness :
  keywords_shaped (fst (parseTool (configured "any" [] [""%string])))
  /\ In [] (keywords_of (fst (parseTool (configured "any" [] [""%string]))))
  /\ toLowerCase [] = []
  /\ tool_passes (toLowerCase (js "hello there"))
       (List.filter (fun word => 2 <? length word)
          (split_ws (toLowerCase (js "hello there"))))
       (fst (parseTool (configured "any" [] [""%string]))) = Returns true.
Proof.
  assert (Hshaped : keywords_shaped (fst (parseTool (configured "any" [] [""%string]))))
    by (right; by exists [[]]).
  assert (Hin : In [] (keywords_of (fst (parseTool (configured "any" [] [""%string])))))
    by (left; reflexivity).
  split; [exact Hshaped|]. split; [exact Hin|]. split; [reflexivity|].
  exact (empty_keyword_matches_all _ [] (js "hello there") Hshaped Hin eq_refl).
Defined.

(** ** The counter *)

Section Counter.
Context `{Host}.

Lemma filter_calls_cons (this : SkipTools) (first : FilterOptions)
    (calls : list FilterOptions) :
  fst (filter_calls this (first :: calls))
  = fst (filter_calls (fst (filter this first)) calls).
Proof.
  cbn [filter_calls]. unfold filter at 1. cbn [fst].
  by destruct (filter_calls _ calls).
Qed.

Lemma filter_calls_app (this : SkipTools) (calls : list FilterOptions)
    (options : FilterOptions) :
  fst (filter_calls this (calls ++ [options]))
  = fst (filter (fst (filter_calls this calls)) options).
Proof.
  revert this. induction calls as [|first calls IH]; intros this.
  - reflexivity.
  - change ((first :: calls) ++ [options]) with (first :: calls ++ [options]).
    by rewrite !filter_calls_cons, IH.
Qed.

(** X18.  After any sequence of calls, [lastProcessedMessageCount] is the
    number of messages of the last call, whether the calls returned or
    threw and whatever their options were. *)
Theorem counter_after_calls (this : SkipTools) (calls : list FilterOptions)
    (options : FilterOptions) :
  lastProcessedMessageCount (fst (filter_calls this (calls ++ [options])))
  = length (messages options).
Proof. by rewrite filter_calls_app, filter_updates_count. Qed.

Lemma filter_empty_query (this : SkipTools) (options : FilterOptions) :
  well_formed this ->
  Extracted.query
    (extractQueryFromMessages this (messages options)
       (option_truthy (onlyNewMessages options))) = [] ->
  maxTools options = None ->
  exists res, snd (filter this options) = Returns res /\ tools res = parsedTools this.
Proof.
  intros Hwf Hquery Hmax. unfold filter. cbn [snd parsedTools].
  destruct (filter_steps_return
              {| parsedTools := parsedTools this;
                 lastProcessedMessageCount := length (messages options) |}
              (Extracted.query
                 (extractQueryFromMessages this (messages options)
                    (option_truthy (onlyNewMessages options)))) Hwf)
    as (keep1 & keep2 & Hstep1 & Hstep2 & Hkeep2 & Hkeep1 & _).
  cbn [parsedTools] in Hstep1, Hstep2, Hkeep2.
  rewrite Hstep1. simpl. rewrite Hstep2, Hmax. simpl.
  eexists. split; [done|]. cbn [tools].
  rewrite Hquery in Hkeep1. specialize (Hkeep1 eq_refl).
  apply filter_keeps_all. intros tool Hin. apply Hkeep2. left.
  exists tool. split; [|done]. apply filter_In. by split.
Qed.

(** X19.  On a well-formed engine, a call with [onlyNewMessages] whose
    history is no longer than the count the engine holds has nothing to
    read: without [maxTools] it returns every tool of the engine,
    whatever the history says. *)
Theorem no_new_messages_returns_all (this : SkipTools) (options : FilterOptions) :
  well_formed this ->
  onlyNewMessages options = Some true ->
  length (messages options) <= lastProcessedMessageCount this ->
  maxTools options = None ->
  Extracted.query (extractQueryFromMessages this (messages options) true) = []
  /\ exists res,
       snd (filter this options) = Returns res /\ tools res = parsedTools this.
Proof.
  intros Hwf Honly Hlen Hmax.
  assert (Hquery : Extracted.query
                     (extractQueryFromMessages this (messages options) true) = []).
  { rewrite extractQuery_window, drop_ge by done. apply extractQuery_no_messages. }
  split; [done|]. apply filter_empty_query; [done | | done].
  by rewrite Honly.
Qed.

End Counter.

Lemma no_new_messages_returns_all_witness :
  well_formed (fst (filter sample_engine (ask [user_says "dependent"])))
  /\ length [user_says "dependent"]
     <= lastProcessedMessageCount (fst (filter sample_engine (ask [user_says "dependent"])))
  /\ Extracted.query
       (extractQueryFromMessages
          (fst (filter sample_engine (ask [user_says "dependent"])))
          [user_says "dependent"] true) = []
  /\ exists res,
       snd (filter (fst (filter sample_engine (ask [user_says "dependent"])))
              {| messages := [user_says "dependent"]; maxTools := None;
                 onlyNewMessages := Some true |}) = Returns res
       /\ tools res = parsedTools (fst (filter sample_engine (ask [user_says "dependent"]))).
Proof.
  assert (Hwf : well_formed (fst (filter sample_engine (ask [user_says "dependent"]))))
    by exact sample_engine_well_formed.
  assert (Hlen : length [user_says "dependent"]
                 <= lastProcessedMessageCount
                      (fst (filter sample_engine (ask [user_says "dependent"]))))
    by (simpl; lia).
  split; [exact Hwf|]. split; [exact Hlen|].
  exact (no_new_messages_returns_all _
           {| messages := [user_says "dependent"]; maxTools := None;
              onlyNewMessages := Some true |} Hwf eq_refl Hlen eq_refl).
Defined.

(** ** Dependency expansion, again *)

Lemma filter_drops_all {A} (keep : A -> bool) (l : list A) :
  (forall x, In x l -> keep x = false) -> List.filter keep l = [].
Proof.
  induction l as [|x l IH]; intros Hnone; simpl; [done|].
  rewrite (Hnone x) by (by left). apply IH. intros y Hy. apply Hnone. by right.
Qed.

(** X20.  Tool names are not required to be unique, and dependency
    expansion selects by name: two tools of the engine with the same name
    are both in what [addDependencies] returns, or both left out. *)
Theorem same_name_same_fate (this : SkipTools) (filtered expanded : list ParsedTool)
    (tool1 tool2 : ParsedTool) :
  addDependencies this filtered = Returns expanded ->
  In tool1 (parsedTools this) ->
  In tool2 (parsedTools this) ->
  name tool1 = name tool2 ->
  (In tool1 expanded <-> In tool2 expanded).
Proof.
  intros Hadd Hin1 Hin2 Hname.
  apply addDependencies_by_name in Hadd as [names ->].
  rewrite !filter_In, Hname. tauto.
Qed.

(** X21.  On an engine whose dependencies were validated, expansion only
    adds: every filtered tool of the engine is in the result; nothing
    expands to nothing; and the whole tool list expands to itself. *)
Theorem addDependencies_extensive (this : SkipTools) (filtered : list ParsedTool) :
  validateDependencies (parsedTools this) = Returns tt ->
  (forall tool, In tool filtered -> In tool (parsedTools this)) ->
  (exists expanded,
     addDependencies this filtered = Returns expanded
     /\ forall tool, In tool filtered -> In tool expanded)
  /\ addDependencies this [] = Returns []
  /\ addDependencies this (parsedTools this) = Returns (parsedTools this).
Proof.
  intros Hvalid Hsub. split_and!.
  - destruct (addDependencies_expansion this filtered) as (keep & -> & Hkeep).
    { by apply validated_subset_shape with this. }
    eexists. split; [done|]. intros tool Hin. apply filter_In. split; [by apply Hsub|].
    apply Hkeep. left. by exists tool.
  - destruct (addDependencies_expansion this []) as (keep & -> & Hkeep);
      [constructor|].
    f_equal. apply filter_drops_all. intros tool _.
    destruct (keep tool) eqn:Hk; [|done].
    apply Hkeep in Hk as [(t & [] & _) | (t & [] & _)].
  - destruct (addDependencies_expansion this (parsedTools this)) as (keep & -> & Hkeep).
    { by apply validateDependencies_shape. }
    f_equal. apply filter_keeps_all. intros tool Hin. apply Hkeep. left. by exists tool.
Qed.

Lemma same_name_same_fate_witness :
  addDependencies twin_engine [twin_first] = Returns [twin_first; twin_second]
  /\ In twin_first (parsedTools twin_engine)
  /\ In twin_second (parsedTools twin_engine)
  /\ name twin_first = name twin_second
  /\ twin_first <> twin_second
  /\ (In twin_first [twin_first; twin_second]
      <-> In twin_second [twin_first; twin_second]).
Proof.
  assert (Hadd : addDependencies twin_engine [twin_first]
                 = Returns [twin_first; twin_second]) by (vm_compute; reflexivity).
  assert (Hin1 : In twin_first (parsedTools twin_engine)) by (left; reflexivity).
  assert (Hin2 : In twin_second (parsedTools twin_engine))
    by (right; left; reflexivity).
  assert (Hname : name twin_first = name twin_second) by reflexivity.
  split; [exact Hadd|]. split; [exact Hin1|]. split; [exact Hin2|].
  split; [exact Hname|]. split; [discriminate|].
  exact (same_name_same_fate twin_engine [twin_first] [twin_first; twin_second]
           twin_first twin_second Hadd Hin1 Hin2 Hname).
Defined.

Example twin_engine_constructed :
  fst (new_SkipTools [configured "twin" [] ["alpha"%string];
                      configured "twin" [] ["beta"%string];
                      configured "other" [] ["gamma"%string]])
  = Returns twin_engine.
Proof. vm_compute. reflexivity. Qed.

(** Through [filter]: a query that matches the first twin only brings
    both. *)
Example twins_through_filter :
  (fun r => match r with
            | Returns res => Some (map name (tools res), map keywords_of (tools res))
            | Throws _ => None
            end)
    (snd (filter twin_engine (ask [user_says "alpha please"])))
  = Some ([js "twin"; js "twin"], [[js "alpha"]; [js "beta"]]).
Proof. vm_compute. reflexivity. Qed.

Lemma addDependencies_extensive_witness :
  validateDependencies (parsedTools chain_engine) = Returns tt
  /\ (forall tool, In tool (drop 2 (parsedTools chain_engine)) ->
                   In tool (parsedTools chain_engine))
  /\ (exists expanded,
        addDependencies chain_engine (drop 2 (parsedTools chain_engine))
        = Returns expanded
        /\ forall tool, In tool (drop 2 (parsedTools chain_engine)) -> In tool expanded)
  /\ addDependencies chain_engine [] = Returns []
  /\ addDependencies chain_engine (parsedTools chain_engine)
     = Returns (parsedTools chain_engine).
Proof.
  assert (Hsub : forall tool, In tool (drop 2 (parsedTools chain_engine)) ->
                              In tool (parsedTools chain_engine)).
  { intros tool Hin. simpl in Hin. destruct Hin as [<- | []].
    right. right. by left. }
  split; [apply chain_engine_validated|]. split; [exact Hsub|].
  exact (addDependencies_extensive chain_engine (drop 2 (parsedTools chain_engine))
           chain_engine_validated Hsub).
Defined.

(** ** What [filter] can throw *)

Lemma someM_throws {A} (f : A -> result bool) (items : list A) (e : exn) :
  someM f items = Throws e -> exists x, In x items /\ f x = Throws e.
Proof.
  induction items as [|x items IH]; simpl; [done|].
  destruct (f x) as [b|e'] eqn:Hx; simpl.
  - destruct b; [done|]. intros Hrest. apply IH in Hrest as (y & Hy & Hfy).
    exists y. split; [by right | done].
  - intros [= <-]. exists x. split; [by left | done].
Qed.

Lemma filterM_throws {A} (f : A -> result bool) (items : list A) (e : exn) :
  filterM f items = Throws e -> exists x, In x items /\ f x = Throws e.
Proof.
  induction items as [|x items IH]; simpl; [done|].
  destruct (f x) as [b|e'] eqn:Hx; simpl.
  - destruct (filterM f items) as [kept|e'] eqn:Hrest; simpl; [done|].
    intros [= <-]. destruct (IH eq_refl) as (y & Hy & Hfy).
    exists y. split; [by right | done].
  - intros [= <-]. exists x. split; [by left | done].
Qed.

Lemma foldM_throws {A S} (f : S -> A -> result S) (items : list A) (acc : S) (e : exn) :
  foldM f acc items = Throws e -> exists acc' x, In x items /\ f acc' x = Throws e.
Proof.
  revert acc. induction items as [|x items IH]; intros acc; simpl; [done|].
  destruct (f acc x) as [acc1|e'] eqn:Hx; simpl.
  - intros Hrest. apply IH in Hrest as (acc' & y & Hy & Hfy).
    exists acc', y. split; [by right | done].
  - intros [= <-]. exists acc, x. split; [by left | done].
Qed.

Lemma foldM_total {A S} (f : S -> A -> S) (items : list A) (acc : S) :
  exists acc', foldM (fun acc x => Returns (f acc x)) acc items = Returns acc'.
Proof.
  revert acc. induction items as [|x items IH]; intros acc; simpl; [by eexists|].
  apply IH.
Qed.

Section Exceptions.
Context `{Host}.

Lemma filterByKeywords_throws (tools : list ParsedTool) (query : jsstring) (e : exn) :
  filterByKeywords tools query = Throws e -> exists what, e = TypeError what.
Proof.
  unfold filterByKeywords. intros Hthrow.
  apply filterM_throws in Hthrow as (tool & _ & Htool).
  unfold tool_passes in Htool.
  destruct (negb _ || _); [done|].
  destruct (get_prop_opt (skip tool) (js "keywords")); try (injection Htool as <-; by eexists).
  apply someM_throws in Htool as (keyword & _ & Hkeyword).
  unfold keyword_matches in Hkeyword.
  destruct keyword; try (injection Hkeyword as <-; by eexists).
  by destruct (includes _ _).
Qed.

Lemma addDependencies_throws (this : SkipTools) (filtered : list ParsedTool) (e : exn) :
  addDependencies this filtered = Throws e -> exists what, e = TypeError what.
Proof.
  unfold addDependencies.
  destruct (foldM add_dependency_names _ filtered) as [names|e'] eqn:Hfold; simpl;
    [done|].
  intros [= <-]. apply foldM_throws in Hfold as (acc & tool & _ & Htool).
  unfold add_dependency_names in Htool.
  destruct (ToBoolean _); [|done].
  destruct (get_prop_opt (skip tool) (js "depends_on")) as [| | | | |items|];
    try (injection Htool as <-; by eexists).
  destruct (foldM_total (fun acc depName => set_add depName acc) items acc) as [acc' Hok].
  congruence.
Qed.

(** X22.  Whatever the engine, the only exception [filter] throws is a
    [TypeError]; the dependency [Error] of construction never comes out of
    [filter]. *)
Theorem filter_throws_TypeError_only (this : SkipTools) (options : FilterOptions)
    (e : exn) :
  snd (filter this options) = Throws e -> exists what, e = TypeError what.
Proof.
  unfold filter. cbn [snd parsedTools].
  destruct (negb _) eqn:Hquery.
  - destruct (filterByKeywords _ _) as [kept|e'] eqn:Hstep1; simpl.
    + destruct (addDependencies _ kept) as [expanded|e'] eqn:Hstep2; simpl; [done|].
      intros [= <-]. by apply addDependencies_throws in Hstep2.
    + intros [= <-]. by apply filterByKeywords_throws in Hstep1.
  - simpl. destruct (addDependencies _ _) as [expanded|e'] eqn:Hstep2; simpl; [done|].
    intros [= <-]. by apply addDependencies_throws in Hstep2.
Qed.

End Exceptions.

Lemma filter_throws_TypeError_only_witness :
  snd (filter weather_engine (ask [user_says "hello there"]))
  = Throws (TypeError "tool.skip.keywords.some is not a function")
  /\ exists what,
       TypeError "tool.skip.keywords.some is not a function" = TypeError what.
Proof.
  assert (Hthrow : snd (filter weather_engine (ask [user_says "hello there"]))
                   = Throws (TypeError "tool.skip.keywords.some is not a function"))
    by (vm_compute; reflexivity).
  split; [exact Hthrow|].
  exact (filter_throws_TypeError_only weather_engine _ _ Hthrow).
Defined.

Lemma filter_keeps_names_distinct_witness :
  exists res,
    snd (filter sample_engine (ask [user_says "I need the dependent tool"]))
    = Returns res
    /\ NoDup (map name (parsedTools sample_engine))
    /\ NoDup (map name (tools res)).
Proof.
  assert (Hres : exists res,
            snd (filter sample_engine (ask [user_says "I need the dependent tool"]))
            = Returns res) by (eexists; vm_compute; reflexivity).
  assert (Hnodup : NoDup (map name (parsedTools sample_engine))).
  { apply (bool_decide_unpack _). vm_compute. exact I. }
  destruct Hres as [res Hres]. exists res. split; [exact Hres|].
  split; [exact Hnodup|].
  exact (filter_keeps_names_distinct sample_engine _ res Hres Hnodup).
Defined.
